(** * rich-codex: the capture-and-render pipeline of [rich_img.py]

    A shallow embedding of [src/rich_codex/rich_img.py] (class [RichImg]) and
    the properties of its command guard, command capture, snippet formatting,
    image export and object identity.

    Conventions of the embedding.
    - A Python [str] is a [string]; one character stands for one code point
      below 256.  [bytes] read from or written to a file are a [string] too.
    - The object [self] and the outside world (files, the [mkstemp] supply,
      the log and the calls made to external libraries) form one state [Sys];
      a method is a computation in the monad [M], which threads [Sys] and
      either returns a value or raises an exception.  Effects performed before
      an exception is raised stay in the state, as in Python.
    - What the external collaborators compute (the shell, the text codec,
      [rich], [cairosvg], the clock, [hash]) is given by a record [Env].
    - The file system is a finite map from names to bytes: one regular file
      per name.  Directories, links and the other spellings of a name are not
      part of it, so that two files are the same when their names are, and
      making a directory or opening a file for writing succeeds.
      [file_name] picks out paths on which this is what the program meets:
      the file names of the working directory. *)

From Stdlib Require Import String Ascii ZArith List Bool Lia.
From Stdlib Require Import DecimalString DecimalZ DecimalPos.
From stdpp Require Import gmap strings list fin_maps.
Import ListNotations.

(** ** Python string methods used by the source *)

Module PyStr.

(** [str.isspace] on one character (code points below 256). *)
Definition is_space (c : ascii) : bool :=
  let n := nat_of_ascii c in
  ((9 <=? n) && (n <=? 13)) || ((28 <=? n) && (n <=? 32))
  || (n =? 133) || (n =? 160).

(** [str.lstrip()] *)
Fixpoint lstrip (s : string) : string :=
  match s with
  | EmptyString => EmptyString
  | String c s' => if is_space c then lstrip s' else s
  end.

(** [str.rstrip()] *)
Fixpoint rstrip (s : string) : string :=
  match s with
  | EmptyString => EmptyString
  | String c s' =>
      match rstrip s' with
      | EmptyString => if is_space c then EmptyString else String c EmptyString
      | r => String c r
      end
  end.

(** [str.strip()] *)
Definition strip (s : string) : string := rstrip (lstrip s).

(** [str.lower()] on one character: A-Z, and the upper-case letters of
    Latin-1 (192-222 but the multiplication sign 215). *)
Definition lower_char (c : ascii) : ascii :=
  let n := nat_of_ascii c in
  if ((65 <=? n) && (n <=? 90)) || ((192 <=? n) && (n <=? 222) && negb (n =? 215))
  then ascii_of_nat (n + 32) else c.

(** [str.lower()] *)
Fixpoint lower (s : string) : string :=
  match s with
  | EmptyString => EmptyString
  | String c s' => String (lower_char c) (lower s')
  end.

(** [s.startswith(p)] *)
Definition startswith (s p : string) : bool := String.prefix p s.

(** [s.endswith(p)]: [s] is [p], or the rest of [s] ends with [p]. *)
Fixpoint endswith (s p : string) : bool :=
  String.eqb s p ||
  match s with
  | EmptyString => false
  | String _ s' => endswith s' p
  end.

(** [s.split(sep)] for a non-empty [sep]: the occurrences of the whole of
    [sep] are found from the left and do not overlap.  [skip] counts the
    characters of an occurrence still to be passed over and [acc] holds the
    current part, last character first. *)
Fixpoint split_go (sep : string) (skip : nat) (acc : list ascii) (s : string)
  : list string :=
  match s with
  | EmptyString => [string_of_list_ascii (rev acc)]
  | String c s' =>
      match skip with
      | S k => split_go sep k acc s'
      | O =>
          if String.prefix sep s
          then string_of_list_ascii (rev acc)
                 :: split_go sep (String.length sep - 1) [] s'
          else split_go sep 0 (c :: acc) s'
      end
  end.

Definition split (s sep : string) : list string := split_go sep 0 [] s.

(** [repr] of an [int]. *)
Definition repr_int (z : Z) : string := NilZero.string_of_int (Z.to_int z).

Definition hex_digit (n : nat) : ascii :=
  if n <? 10 then ascii_of_nat (48 + n) else ascii_of_nat (87 + n).

Fixpoint contains_char (c : ascii) (s : string) : bool :=
  match s with
  | EmptyString => false
  | String d s' => Ascii.eqb c d || contains_char c s'
  end.

(** One character of [repr] of a [str] delimited by [quote]. *)
Definition repr_char (quote c : ascii) : string :=
  let n := nat_of_ascii c in
  if Ascii.eqb c quote || (n =? 92) then String "\" (String c EmptyString)
  else if n =? 9 then "\t"
  else if n =? 10 then "\n"
  else if n =? 13 then "\r"
  else if (n <? 32) || ((127 <=? n) && (n <? 161)) || (n =? 173)
  then String "\" (String "x" (String (hex_digit (n / 16))
                       (String (hex_digit (n mod 16)) EmptyString)))
  else String c EmptyString.

Fixpoint repr_chars (quote : ascii) (s : string) : string :=
  match s with
  | EmptyString => EmptyString
  | String c s' => repr_char quote c +:+ repr_chars quote s'
  end.

(** [repr] of a [str]: single quotes, unless the text holds a single quote
    and no double quote. *)
Definition repr_str (s : string) : string :=
  let dquote : ascii := ascii_of_nat 34 in
  let quote : ascii :=
    if contains_char "'" s && negb (contains_char dquote s) then dquote
    else "'"%char in
  String quote (repr_chars quote s) +:+ String quote EmptyString.

(** [", ".join(l)] *)
Fixpoint join_comma (l : list string) : string :=
  match l with
  | [] => EmptyString
  | [x] => x
  | x :: rest => x +:+ ", " +:+ join_comma rest
  end.

(** [repr] of a list whose elements have the given [repr]s. *)
Definition repr_list (elems : list string) : string :=
  "[" +:+ join_comma elems +:+ "]".

End PyStr.

(** ** Data model *)

(** Exceptions the code can meet.  All are subclasses of [Exception]. *)
Inductive exn :=
| AttributeError
| RuntimeError
| ImportError
| ModuleNotFoundError
| OSError
| FileNotFoundError
| SameFileError
| UnicodeDecodeError
| JSONDecodeError
| ParseError.

(** [isinstance(e, ImportError)] *)
Definition is_ImportError (e : exn) : bool :=
  match e with ImportError | ModuleNotFoundError => true | _ => false end.

(** [isinstance(e, OSError)] *)
Definition is_OSError (e : exn) : bool :=
  match e with OSError | FileNotFoundError | SameFileError => true | _ => false end.

(** What a method hands back: [None], a [bool] or an [int]. *)
Inductive pyval :=
| PyNone
| PyBool (b : bool)
| PyInt (z : Z).

(** A file name.  [UserPath s] is a name the caller wrote (an entry of
    [img_paths], the debug log); [TmpPath n suffix] is the [n]-th name handed
    out by [mkstemp], which names a file that did not exist before and that
    no caller can have written down. *)
Inductive path :=
| UserPath (s : string)
| TmpPath (n : nat) (suffix : string).

#[global] Instance path_eq_dec : EqDecision path.
Proof. solve_decision. Defined.

#[global] Instance path_countable : Countable path.
Proof.
  refine (inj_countable'
            (fun p => match p with
                      | UserPath s => inl s
                      | TmpPath n suffix => inr (n, suffix)
                      end)
            (fun x => match x with
                      | inl s => UserPath s
                      | inr (n, suffix) => TmpPath n suffix
                      end) _).
  intros []; reflexivity.
Defined.

(** The text of a path, as an f-string prints it. *)
Definition path_str (p : path) : string :=
  match p with
  | UserPath s => s
  | TmpPath n suffix =>
      "/tmp/tmp" +:+ NilZero.string_of_uint (Nat.to_uint n) +:+ suffix
  end.

(** What [capture_console] records: one entry per [print] call. *)
Inductive renderable :=
| AnsiText (line : string)                       (* a line given by AnsiDecoder *)
| JsonText (pretty : string)                     (* print_json(json=...) *)
| SyntaxBlock (code : string) (lexer : option string). (* Syntax(code, lexer) *)

Inductive level := Debug | Info | Warning | Error.

(** The log calls of the source, one constructor per call site. *)
Inductive message :=
| MsgNoCommand                         (* "Tried to generate image with no command" *)
| MsgIgnoring (ignore cmd : string)    (* "Ignoring command because it contained '..': .." *)
| MsgRunning (cmd : string)            (* "Running command '..'" *)
| MsgNoSnippet                         (* "Tried to format snippet with no snippet" *)
| MsgFormattingSnippet                 (* "Formatting snippet" *)
| MsgFormattingJSON                    (* "Formatting snippet as JSON" *)
| MsgFormattingAs (syntax : option string) (* "Formatting snippet as {snippet_syntax}" *)
| MsgNoCmdOrSnippet                    (* "Tried to get output with no command or snippet" *)
| MsgNoPaths                           (* "Tried to save images with no paths" *)
| MsgSaving (filename : string)        (* "Saving [magenta]{filename}" *)
| MsgException (e : exn)               (* log.debug(e) *)
| MsgCairoNotInstalled                 (* "CairoSVG not installed, cannot convert ..." *)
| MsgCairoInstallHint                  (* "Please install with cairo extra: ..." *)
| MsgCairoMissingDeps (filename : string). (* "Missing CairoSVG dependencies ... Skipping image '..'" *)

(** A call that reaches outside the object, in the order the calls are made.
    A call is recorded when it is made, whether or not it then raises. *)
Inductive event :=
| Log (lvl : level) (msg : message)
| Ask (cmd : string)                (* Confirm.ask *)
| Mkstemp (p : path)
| Popen (command : string)          (* subprocess.Popen(command, shell=True) *)
| ReadText (p : path)               (* open(p, "r").read() *)
| Mkdir (filename : string)         (* Path(filename).parent.mkdir(parents=True, exist_ok=True) *)
| SaveSvg (p : path) (title : string)
| Svg2Png (src : path) (dst : string)
| Svg2Pdf (src : path) (dst : string)
| CopyFile (src dst : path)
| Unlink (p : path).

(** [datetime.datetime] values, as far as [strftime] reads them. *)
Record datetime_t := {
  year : nat; month : nat; day : nat;
  hour : nat; minute : nat; second : nat; microsecond : nat
}.

(** The external collaborators. *)
Record Env := {
  (** the bytes a shell command leaves in the file its output is sent to *)
  shell_output : string -> string;
  (** [open(f, "r").read()] on a file holding these bytes: the decoded text,
      or the decode or IO error raised *)
  read_text : string -> exn + string;
  (** [AnsiDecoder().decode(text)]: one decoded line per line of [text] *)
  ansi_decode : string -> list string;
  (** [rich]'s JSON pretty-printer; [None] when [json.loads] raises *)
  json_pretty : string -> option string;
  (** [Console.save_svg]: the bytes of the SVG for a title and a record *)
  svg_export : string -> list renderable -> string;
  (** [from cairosvg import svg2pdf, svg2png]: [None] when the import
      succeeds, the exception raised otherwise *)
  cairosvg_import : option exn;
  (** [cairosvg.svg2png(file_obj, dpi, output_width)] on the bytes of an SVG *)
  svg2png : string -> Z -> Z -> exn + string;
  (** [cairosvg.svg2pdf(file_obj)] *)
  svg2pdf : string -> exn + string;
  (** the answer to [Confirm.ask] for a command *)
  confirm_ask : string -> bool;
  (** the clock *)
  clock : datetime_t;
  (** [hash] of a [str] (it depends on the interpreter's hash seed) *)
  py_hash : string -> Z
}.

(** The attributes of a [RichImg] object ([console], the terminal the prompt
    is written to, is kept in [Env.confirm_ask]). *)
Record RichImg := {
  terminal_width : option Z;
  terminal_theme : option string;
  title : string;
  capture_console : list renderable;
  cmd : option string;
  snippet : option string;
  snippet_syntax : option string;
  img_paths : list string;
  no_confirm : bool;
  aborted : bool
}.

(** [RichImg.__init__] *)
Definition __init__ (terminal_width : option Z) (terminal_theme : option string)
  : RichImg :=
  {| terminal_width := terminal_width;
     terminal_theme := terminal_theme;
     title := "";
     capture_console := [];
     cmd := None;
     snippet := None;
     snippet_syntax := None;
     img_paths := [];
     no_confirm := false;
     aborted := false |}.

(** The object and the world around it. *)
Record Sys := {
  self : RichImg;
  files : gmap path string;     (* the bytes of every file that exists *)
  tmp_count : nat;              (* names handed out by mkstemp so far *)
  trace : list event            (* calls made, oldest first *)
}.

Definition with_self (r : RichImg) (s : Sys) : Sys :=
  {| self := r; files := files s; tmp_count := tmp_count s; trace := trace s |}.

Definition with_files (f : gmap path string) (s : Sys) : Sys :=
  {| self := self s; files := f; tmp_count := tmp_count s; trace := trace s |}.

Definition with_trace (t : list event) (s : Sys) : Sys :=
  {| self := self s; files := files s; tmp_count := tmp_count s; trace := t |}.

Definition set_cmd (c : option string) (r : RichImg) : RichImg :=
  {| terminal_width := terminal_width r; terminal_theme := terminal_theme r;
     title := title r; capture_console := capture_console r;
     cmd := c; snippet := snippet r; snippet_syntax := snippet_syntax r;
     img_paths := img_paths r; no_confirm := no_confirm r; aborted := aborted r |}.

Definition set_title (t : string) (r : RichImg) : RichImg :=
  {| terminal_width := terminal_width r; terminal_theme := terminal_theme r;
     title := t; capture_console := capture_console r;
     cmd := cmd r; snippet := snippet r; snippet_syntax := snippet_syntax r;
     img_paths := img_paths r; no_confirm := no_confirm r; aborted := aborted r |}.

Definition set_aborted (b : bool) (r : RichImg) : RichImg :=
  {| terminal_width := terminal_width r; terminal_theme := terminal_theme r;
     title := title r; capture_console := capture_console r;
     cmd := cmd r; snippet := snippet r; snippet_syntax := snippet_syntax r;
     img_paths := img_paths r; no_confirm := no_confirm r; aborted := b |}.

Definition set_capture_console (c : list renderable) (r : RichImg) : RichImg :=
  {| terminal_width := terminal_width r; terminal_theme := terminal_theme r;
     title := title r; capture_console := c;
     cmd := cmd r; snippet := snippet r; snippet_syntax := snippet_syntax r;
     img_paths := img_paths r; no_confirm := no_confirm r; aborted := aborted r |}.

Definition set_snippet (sn sy : option string) (r : RichImg) : RichImg :=
  {| terminal_width := terminal_width r; terminal_theme := terminal_theme r;
     title := title r; capture_console := capture_console r;
     cmd := cmd r; snippet := sn; snippet_syntax := sy;
     img_paths := img_paths r; no_confirm := no_confirm r; aborted := aborted r |}.

Definition set_img_paths (l : list string) (r : RichImg) : RichImg :=
  {| terminal_width := terminal_width r; terminal_theme := terminal_theme r;
     title := title r; capture_console := capture_console r;
     cmd := cmd r; snippet := snippet r; snippet_syntax := snippet_syntax r;
     img_paths := l; no_confirm := no_confirm r; aborted := aborted r |}.

(** ** The monad of methods: state and exceptions *)

Definition M (A : Type) : Type := Sys -> (exn + A) * Sys.

#[global] Instance M_ret : MRet M := fun A a s => (inr a, s).

#[global] Instance M_bind : MBind M := fun A B k m s =>
  match m s with
  | (inl e, s') => (inl e, s')
  | (inr a, s') => k a s'
  end.

Definition raise {A : Type} (e : exn) : M A := fun s => (inl e, s).

(** [try: body  except Exception as e: handler(e)] *)
Definition try_except {A : Type} (body : M A) (handler : exn -> M A) : M A :=
  fun s =>
    match body s with
    | (inl e, s') => handler e s'
    | (inr a, s') => (inr a, s')
    end.

Definition emit (e : event) : M unit :=
  fun s => (inr tt, with_trace (trace s ++ [e]) s).

Definition log (lvl : level) (msg : message) : M unit := emit (Log lvl msg).

Definition get_self : M RichImg := fun s => (inr (self s), s).

Definition modify_self (f : RichImg -> RichImg) : M unit :=
  fun s => (inr tt, with_self (f (self s)) s).

Definition get_files : M (gmap path string) := fun s => (inr (files s), s).

(** Writing creates the file or replaces its bytes. *)
Definition write_file (p : path) (bytes : string) : M unit :=
  fun s => (inr tt, with_files (<[p := bytes]> (files s)) s).

Definition delete_file (p : path) : M unit :=
  fun s => (inr tt, with_files (delete p (files s)) s).

(** Opening an existing file for reading. *)
Definition read_file (p : path) : M string :=
  fs ← get_files;
  match fs !! p with
  | Some bytes => mret bytes
  | None => raise FileNotFoundError
  end.

(** ** Library calls *)

(** [tempfile.mkstemp(suffix)[1]]: a new, empty file under a new name. *)
Definition mkstemp (suffix : string) : M path :=
  fun s =>
    let p := TmpPath (tmp_count s) suffix in
    (inr p,
     {| self := self s;
        files := <[p := EmptyString]> (files s);
        tmp_count := S (tmp_count s);
        trace := trace s ++ [Mkstemp p] |}).

(** [os.unlink(p)] and [pathlib.Path(p).unlink()] *)
Definition unlink (p : path) : M unit :=
  _ ← emit (Unlink p);
  fs ← get_files;
  match fs !! p with
  | Some _ => delete_file p
  | None => raise FileNotFoundError
  end.

(** [shutil.copyfile(src, dst)] (and [shutil.copy] to a file name): the two
    names must not be the same existing file, which the state tells by the
    names. *)
Definition copyfile (src dst : path) : M unit :=
  _ ← emit (CopyFile src dst);
  fs ← get_files;
  match fs !! src with
  | Some bytes =>
      if decide (src = dst) then raise SameFileError else write_file dst bytes
  | None => raise FileNotFoundError
  end.

(** [pathlib.Path(filename).parent.mkdir(parents=True, exist_ok=True)].
    Directories are not part of the state: the call is recorded and
    succeeds. *)
Definition mkdir_parent (filename : string) : M unit := emit (Mkdir filename).

(** The lexer of a [rich.syntax.Syntax(code, lexer)].  [knows alias] says
    whether pygments' [get_lexer_by_name(alias)] finds a lexer rather than
    raise [ClassNotFound]; it finds none for [None].

    [Syntax.lexer]: the lexer found under the name given to the constructor,
    [None] when there is none. *)
Definition Syntax_lexer (knows : string -> bool) (lexer : option string)
  : option string :=
  match lexer with
  | Some alias => if knows alias then Some alias else None
  | None => None
  end.

(** [Syntax.default_lexer]: "a Pygments Lexer to use if one is not specified
    or invalid". *)
Definition Syntax_default_lexer : string := "text".

(** The lexer [Syntax.highlight] works with when the block is printed:
    [self.lexer or self.default_lexer]. *)
Definition highlight_lexer (knows : string -> bool) (lexer : option string)
  : string :=
  match Syntax_lexer knows lexer with
  | Some found => found
  | None => Syntax_default_lexer
  end.

(** [capture_console.print(r)] *)
Definition console_print (r : renderable) : M unit :=
  modify_self (fun o => set_capture_console (capture_console o ++ [r]) o).

Fixpoint console_print_all (l : list renderable) : M unit :=
  match l with
  | [] => mret tt
  | r :: rest => _ ← console_print r; console_print_all rest
  end.

(** The names bound in module [datetime]. *)
Definition datetime_module : list string :=
  ["MAXYEAR"; "MINYEAR"; "UTC"; "date"; "datetime"; "datetime_CAPI";
   "time"; "timedelta"; "timezone"; "tzinfo"].

(** Decimal text of [n] on [width] digits, zero-padded. *)
Fixpoint zero_pad (width n : nat) : string :=
  match width with
  | O => EmptyString
  | S w => zero_pad w (n / 10) +:+ String (ascii_of_nat (48 + n mod 10)) EmptyString
  end.

(** [d.strftime("%Y.%m.%d--%H.%M.%S.%f")] *)
Definition strftime (d : datetime_t) : string :=
  zero_pad 4 (year d) +:+ "." +:+ zero_pad 2 (month d) +:+ "." +:+ zero_pad 2 (day d)
  +:+ "--" +:+ zero_pad 2 (hour d) +:+ "." +:+ zero_pad 2 (minute d) +:+ "."
  +:+ zero_pad 2 (second d) +:+ "." +:+ zero_pad 6 (microsecond d).

Section Methods.

Variable env : Env.

(** [capture_console.save_svg(p, title=title)]: [export_svg] renders the
    record and, its argument [clear] being left at the default [True],
    empties the record; the SVG is then written to [p]. *)
Definition save_svg (p : path) (ttl : string) : M unit :=
  _ ← emit (SaveSvg p ttl);
  o ← get_self;
  _ ← modify_self (set_capture_console []);
  write_file p (svg_export env ttl (capture_console o)).

(** [svg2png(file_obj=open(src, "rb"), write_to=dst, dpi=300, output_width=4000)] *)
Definition call_svg2png (src : path) (dst : string) : M unit :=
  _ ← emit (Svg2Png src dst);
  bytes ← read_file src;
  match svg2png env bytes 300 4000 with
  | inr png => write_file (UserPath dst) png
  | inl e => raise e
  end.

(** [svg2pdf(file_obj=open(src, "rb"), write_to=dst)] *)
Definition call_svg2pdf (src : path) (dst : string) : M unit :=
  _ ← emit (Svg2Pdf src dst);
  bytes ← read_file src;
  match svg2pdf env bytes with
  | inr pdf => write_file (UserPath dst) pdf
  | inl e => raise e
  end.

(** [capture_console.print_json(json=text)]: the text is parsed before
    anything is printed. *)
Definition print_json (text : string) : M unit :=
  match json_pretty env text with
  | Some pretty => console_print (JsonText pretty)
  | None => raise JSONDecodeError
  end.

(** [datetime.now()] after [import datetime]: attribute [now] of the
    module. *)
Definition datetime_now : M datetime_t :=
  if existsb (String.eqb "now") datetime_module
  then mret (clock env)
  else raise AttributeError.

(** [subprocess.Popen(command, shell=True).communicate()] for the command
    line [script -q /dev/null CMD 2>&1 > TARGET]: the output of [CMD] ends
    up in [TARGET].  What else the command does to the files is outside
    the state. *)
Definition popen (command cmd_text : string) (target : path) : M unit :=
  _ ← emit (Popen command);
  write_file target (shell_output env cmd_text).

(** [with open(p, "r") as f: f.read()] *)
Definition read_text_file (p : path) : M string :=
  _ ← emit (ReadText p);
  bytes ← read_file p;
  match read_text env bytes with
  | inr text => mret text
  | inl e => raise e
  end.

(** ** Class [RichImg] *)

(** Base list of commands to ignore *)
Definition IGNORE_COMMANDS : list string := ["rm"; "cp"; "mv"; "sudo"].

(** [confirm_command] *)
Definition confirm_command : M pyval :=
  o ← get_self;
  match cmd o with
  | None => mret (PyBool true)
  | Some c =>
      if no_confirm o then mret (PyBool true)
      else _ ← emit (Ask c); mret (PyBool (confirm_ask env c))
  end.

(** [any(cmd_part.strip().startswith(ignore) for cmd_part in cmd.split("&;"))] *)
Definition contains_ignored (c ignore : string) : bool :=
  existsb (fun cmd_part => PyStr.startswith (PyStr.strip cmd_part) ignore)
          (PyStr.split c "&;").

(** The part of [pipe_command] after the guard: run the command and
    capture what it printed. *)
Definition run_and_capture (c : string) : M pyval :=
  _ ← log Debug (MsgRunning c);
  o ← get_self;
  _ ← (if String.eqb (title o) "" then modify_self (set_title c) else mret tt);
  tmp_file ← mkstemp "";
  _ ← popen ("script -q /dev/null " +:+ c +:+ " 2>&1 > " +:+ path_str tmp_file)
            c tmp_file;
  text ← read_text_file tmp_file;
  _ ← console_print_all (map AnsiText (ansi_decode env text));
  now ← datetime_now;
  _ ← copyfile tmp_file
        (UserPath ("rich_codex_cmdout_" +:+ strftime now +:+ ".log"));
  _ ← unlink tmp_file;
  mret PyNone.

(** [pipe_command].  The [for ignore in IGNORE_COMMANDS] loop returns at
    the first entry whose test holds, which is what [find] gives. *)
Definition pipe_command : M pyval :=
  o ← get_self;
  match cmd o with
  | None => _ ← log Debug MsgNoCommand; mret PyNone
  | Some c0 =>
      let c := PyStr.strip c0 in
      _ ← modify_self (set_cmd (Some c));
      match find (contains_ignored c) IGNORE_COMMANDS with
      | Some ignore =>
          _ ← log Warning (MsgIgnoring ignore c);
          _ ← modify_self (set_aborted true);
          mret (PyBool false)
      | None => run_and_capture c
      end
  end.

(** [format_snippetg].  A bare [raise] with no exception being handled
    raises [RuntimeError], which [except Exception] catches. *)
Definition format_snippetg : M pyval :=
  o ← get_self;
  match snippet o with
  | None => _ ← log Debug MsgNoSnippet; mret PyNone
  | Some text =>
      _ ← log Info MsgFormattingSnippet;
      try_except
        (if bool_decide (snippet_syntax o = Some "json")
            || bool_decide (snippet_syntax o = None)
         then _ ← print_json text;
              _ ← log Debug MsgFormattingJSON;
              mret PyNone
         else raise RuntimeError)
        (fun _ =>
           o' ← get_self;
           _ ← log Debug (MsgFormattingAs (snippet_syntax o'));
           _ ← console_print (SyntaxBlock text (snippet_syntax o'));
           mret PyNone)
  end.

(** The methods [self.NAME()] can reach from [get_output]: the class binds
    [confirm_command], [pipe_command] and [format_snippetg] (beside
    [get_output], [save_images] and the special methods). *)
Definition RichImg_method (name : string) : option (M pyval) :=
  if String.eqb name "confirm_command" then Some confirm_command
  else if String.eqb name "pipe_command" then Some pipe_command
  else if String.eqb name "format_snippetg" then Some format_snippetg
  else None.

(** [self.NAME()] *)
Definition call_method (name : string) : M pyval :=
  match RichImg_method name with
  | Some m => m
  | None => raise AttributeError
  end.

(** [get_output] *)
Definition get_output : M pyval :=
  o ← get_self;
  if bool_decide (cmd o <> None) then
    _ ← call_method "pipe_command"; mret PyNone
  else if bool_decide (snippet o = None) then
    _ ← call_method "format_snippet"; mret PyNone
  else
    _ ← log Debug MsgNoCmdOrSnippet; mret PyNone.

Definition is_png (filename : string) : bool :=
  PyStr.endswith (PyStr.lower filename) ".png".

Definition is_pdf (filename : string) : bool :=
  PyStr.endswith (PyStr.lower filename) ".pdf".

(** What the [try: from cairosvg import ...] block of [save_images] does for
    [filename]: [true] when the import succeeded, [false] when the path is
    to be skipped ([continue]); any other exception goes on to the caller. *)
Definition lazy_load_cairosvg (filename : string) : M bool :=
  match cairosvg_import env with
  | None => mret true
  | Some e =>
      if is_ImportError e then
        _ ← log Debug (MsgException e);
        _ ← log Error MsgCairoNotInstalled;
        _ ← log Info MsgCairoInstallHint;
        mret false
      else if is_OSError e then
        _ ← log Debug (MsgException e);
        _ ← log Error (MsgCairoMissingDeps filename);
        mret false
      else raise e
  end.

(** The [for filename in self.img_paths] loop of [save_images], with its
    three local variables. *)
Fixpoint save_loop (paths : list string) (svg_img png_img pdf_img : option path)
  : M unit :=
  match paths with
  | [] => mret tt
  | filename :: rest =>
      _ ← log Debug (MsgSaving filename);
      _ ← mkdir_parent filename;
      (* If already made this image, copy it from the last destination *)
      match (if is_png filename then png_img else None) with
      | Some png =>
          _ ← copyfile png (UserPath filename);
          save_loop rest svg_img png_img pdf_img
      | None =>
      match (if is_pdf filename then pdf_img else None) with
      | Some pdf =>
          _ ← copyfile pdf (UserPath filename);
          save_loop rest svg_img png_img pdf_img
      | None =>
      match svg_img with
      | Some svg =>
          _ ← copyfile svg (UserPath filename);
          save_loop rest svg_img png_img pdf_img
      | None =>
          (* Set filenames *)
          svg_filename ← (if is_png filename || is_pdf filename
                          then mkstemp ".svg"
                          else mret (UserPath filename));
          (* We always generate an SVG first (svg_img is None here) *)
          o ← get_self;
          _ ← save_svg svg_filename (title o);
          let svg_img := Some svg_filename in
          (* Lazy-load PNG / PDF libraries if needed *)
          loaded ← (if is_png filename || is_pdf filename
                    then lazy_load_cairosvg filename
                    else mret true);
          if loaded : bool then
            (* Convert to PNG if requested *)
            png_img ← (if is_png filename
                       then _ ← call_svg2png svg_filename filename;
                            _ ← unlink svg_filename;
                            mret (Some (UserPath filename))
                       else mret png_img);
            (* Convert to PDF if requested *)
            pdf_img ← (if is_pdf filename
                       then _ ← call_svg2pdf svg_filename filename;
                            _ ← unlink svg_filename;
                            mret (Some (UserPath filename))
                       else mret pdf_img);
            save_loop rest svg_img png_img pdf_img
          else save_loop rest svg_img png_img pdf_img
      end end end
  end.

(** [save_images] *)
Definition save_images : M pyval :=
  o ← get_self;
  if aborted o then mret PyNone
  else if Nat.eqb (length (img_paths o)) 0 then
    _ ← log Warning MsgNoPaths; mret PyNone
  else
    _ ← save_loop (img_paths o) None None None;
    mret (PyInt (Z.of_nat (length (img_paths o)))).

End Methods.

(** ** Identity of [RichImg] objects *)

(** The data attributes of a [RichImg] object, by name. *)
Module Attr.
Inductive t :=
| terminal_width | terminal_theme | title | cmd | snippet | snippet_syntax
| img_paths | no_confirm | aborted.

#[global] Instance eq_dec : EqDecision t.
Proof. solve_decision. Defined.
End Attr.

(** Attributes of RichImg which are important for equality *)
Definition RICH_IMG_ATTRS : list Attr.t :=
  [Attr.terminal_width; Attr.terminal_theme; Attr.title; Attr.cmd;
   Attr.snippet; Attr.snippet_syntax; Attr.img_paths].

(** The values the data attributes hold. *)
Inductive pyobj :=
| ONone
| OBool (b : bool)
| OInt (z : Z)
| OStr (s : string)
| OStrList (l : list string).

#[global] Instance pyobj_eq_dec : EqDecision pyobj.
Proof. solve_decision. Defined.

Definition of_option {A : Type} (f : A -> pyobj) (o : option A) : pyobj :=
  match o with
  | None => ONone
  | Some a => f a
  end.

(** [getattr(o, attr)] *)
Definition getattr (o : RichImg) (attr : Attr.t) : pyobj :=
  match attr with
  | Attr.terminal_width => of_option OInt (terminal_width o)
  | Attr.terminal_theme => of_option OStr (terminal_theme o)
  | Attr.title => OStr (title o)
  | Attr.cmd => of_option OStr (cmd o)
  | Attr.snippet => of_option OStr (snippet o)
  | Attr.snippet_syntax => of_option OStr (snippet_syntax o)
  | Attr.img_paths => OStrList (img_paths o)
  | Attr.no_confirm => OBool (no_confirm o)
  | Attr.aborted => OBool (aborted o)
  end.

(** [x == y] on attribute values *)
Definition py_eq (x y : pyobj) : bool := bool_decide (x = y).

(** [repr(x)] *)
Definition repr (x : pyobj) : string :=
  match x with
  | ONone => "None"
  | OBool true => "True"
  | OBool false => "False"
  | OInt z => PyStr.repr_int z
  | OStr s => PyStr.repr_str s
  | OStrList l => PyStr.repr_list (map PyStr.repr_str l)
  end.

(** [str(l)] for a list [l] of attribute values *)
Definition str_of_list (l : list pyobj) : string := PyStr.repr_list (map repr l).

(** [RichImg.__eq__] between two [RichImg] objects *)
Definition __eq__ (self other : RichImg) : bool :=
  forallb (fun attr => py_eq (getattr self attr) (getattr other attr)) RICH_IMG_ATTRS.

(** [RichImg.__hash__] *)
Definition __hash__ (env : Env) (self : RichImg) : Z :=
  let attrs := str_of_list (map (getattr self) RICH_IMG_ATTRS) in
  py_hash env attrs.

(** [RichImg._hash_no_fn] *)
Definition _hash_no_fn (env : Env) (self : RichImg) : Z :=
  let attrs :=
    str_of_list
      (map (getattr self)
           (filter (fun attr => attr <> Attr.img_paths) RICH_IMG_ATTRS)) in
  py_hash env attrs.

(** ** A concrete environment and concrete jobs, for running the model *)

Module Demo.

Fixpoint lines_text (l : list renderable) : string :=
  match l with
  | [] => EmptyString
  | AnsiText t :: rest => t +:+ ";" +:+ lines_text rest
  | JsonText t :: rest => t +:+ ";" +:+ lines_text rest
  | SyntaxBlock t _ :: rest => t +:+ ";" +:+ lines_text rest
  end.

(** An environment in which the shell echoes the command text, every file
    decodes, only the text [{}] is JSON, and cairosvg is installed. *)
Definition env : Env :=
  {| shell_output := fun c => "out of " +:+ c;
     read_text := fun bytes => inr bytes;
     ansi_decode := fun text => [text];
     json_pretty := fun text => if String.eqb text "{}" then Some "{}" else None;
     svg_export := fun ttl record => "<svg " +:+ ttl +:+ ">" +:+ lines_text record;
     cairosvg_import := None;
     svg2png := fun svg _ _ => inr ("PNG of " +:+ svg);
     svg2pdf := fun svg => inr ("PDF of " +:+ svg);
     confirm_ask := fun _ => true;
     clock := {| year := 2022; month := 7; day := 4; hour := 9; minute := 5;
                 second := 3; microsecond := 1234 |};
     py_hash := fun s => Z.of_nat (String.length s) |}.

(** [e], with the import of cairosvg giving [r]. *)
Definition set_cairosvg_import (r : option exn) (e : Env) : Env :=
  {| shell_output := shell_output e;
     read_text := read_text e;
     ansi_decode := ansi_decode e;
     json_pretty := json_pretty e;
     svg_export := svg_export e;
     cairosvg_import := r;
     svg2png := svg2png e;
     svg2pdf := svg2pdf e;
     confirm_ask := confirm_ask e;
     clock := clock e;
     py_hash := py_hash e |}.

(** [e], with a codec that rejects every file. *)
Definition set_undecodable (e : Env) : Env :=
  {| shell_output := shell_output e;
     read_text := fun _ => inl UnicodeDecodeError;
     ansi_decode := ansi_decode e;
     json_pretty := json_pretty e;
     svg_export := svg_export e;
     cairosvg_import := cairosvg_import e;
     svg2png := svg2png e;
     svg2pdf := svg2pdf e;
     confirm_ask := confirm_ask e;
     clock := clock e;
     py_hash := py_hash e |}.

(** A pygments that has lexers under five names. *)
Definition get_lexer_by_name (alias : string) : bool :=
  existsb (String.eqb (PyStr.lower alias)) ["json"; "text"; "python"; "yaml"; "bash"].

(** A new object in an empty directory. *)
Definition start (o : RichImg) : Sys :=
  {| self := o; files := ∅; tmp_count := 0; trace := [] |}.

Definition command_job (c : string) (paths : list string) : RichImg :=
  set_img_paths paths (set_cmd (Some c) (__init__ None None)).

Definition snippet_job (text : string) (syntax : option string)
           (paths : list string) : RichImg :=
  set_img_paths paths (set_snippet (Some text) syntax (__init__ None None)).

End Demo.

(** ** States and notions the properties are stated with *)

(** The state [run_and_capture c] reaches from [s] once the command has run
    and its output file has been opened for reading: the title defaults to
    the command, the temporary file holds the output, and four calls have
    been made. *)
Definition spawned (env : Env) (c : string) (s : Sys) : Sys :=
  let tmp_file := TmpPath (tmp_count s) EmptyString in
  {| self := if String.eqb (title (self s)) "" then set_title c (self s) else self s;
     files := <[tmp_file := shell_output env c]> (files s);
     tmp_count := S (tmp_count s);
     trace := trace s ++
              [Log Debug (MsgRunning c);
               Mkstemp tmp_file;
               Popen ("script -q /dev/null " +:+ c +:+ " 2>&1 > " +:+ path_str tmp_file);
               ReadText tmp_file] |}.

(** [o] after [print] was called on each entry of [l]. *)
Definition printed (l : list renderable) (s : Sys) : Sys :=
  with_self (set_capture_console (capture_console (self s) ++ l) (self s)) s.

(** The guard of the specification. *)
Module Spec.

(** Follows the spec's words: the command is split "on sequencing/pipe
    separators", that is at every [;], [&] and [|]. *)
Definition is_separator (c : ascii) : bool :=
  Ascii.eqb c ";" || Ascii.eqb c "&" || Ascii.eqb c "|".

Fixpoint segments_go (acc : list ascii) (s : string) : list string :=
  match s with
  | EmptyString => [string_of_list_ascii (rev acc)]
  | String c s' =>
      if is_separator c
      then string_of_list_ascii (rev acc) :: segments_go [] s'
      else segments_go (c :: acc) s'
  end.

Definition segments (s : string) : list string := segments_go [] s.

(** The text before the first separator. *)
Fixpoint first_segment (s : string) : string :=
  match s with
  | EmptyString => EmptyString
  | String c s' => if is_separator c then EmptyString else String c (first_segment s')
  end.

(** Follows the spec's words: "if any segment, after trimming, starts with
    a name on the denylist, the whole command is Rejected". *)
Definition rejects (c : string) : bool :=
  existsb (fun segment =>
             existsb (PyStr.startswith (PyStr.strip segment)) IGNORE_COMMANDS)
          (segments c).

End Spec.

(** The paths the export loop started on, in order: one [Mkdir] call is made
    at the start of every round of the loop. *)
Fixpoint attempted (t : list event) : list string :=
  match t with
  | [] => []
  | Mkdir filename :: rest => filename :: attempted rest
  | _ :: rest => attempted rest
  end.

(** The calls to the rasterizer. *)
Definition is_rasterization (e : event) : bool :=
  match e with
  | Svg2Png _ _ | Svg2Pdf _ _ => true
  | _ => false
  end.

(** The calls to [save_svg]: the render passes. *)
Definition is_render (e : event) : bool :=
  match e with
  | SaveSvg _ _ => true
  | _ => false
  end.

(** The calls made by the rounds of the export loop that copy [src] onto each
    of [paths]. *)
Definition copy_events (src : path) (paths : list string) : list event :=
  flat_map (fun filename =>
              [Log Debug (MsgSaving filename); Mkdir filename;
               CopyFile src (UserPath filename)])
           paths.

(** The files after [bytes] was written to each of [paths]. *)
Definition copy_all (bytes : string) (paths : list string) (fs : gmap path string)
  : gmap path string :=
  fold_left (fun fs filename => <[UserPath filename := bytes]> fs) paths fs.

(** The lines logged when the import of cairosvg raises [e] while [filename]
    is being exported. *)
Definition skip_log (e : exn) (filename : string) : list event :=
  if is_ImportError e
  then [Log Debug (MsgException e); Log Error MsgCairoNotInstalled;
        Log Info MsgCairoInstallHint]
  else [Log Debug (MsgException e); Log Error (MsgCairoMissingDeps filename)].

(** The bytes of the SVG a job in state [s] renders to. *)
Definition rendered_svg (env : Env) (s : Sys) : string :=
  svg_export env (title (self s)) (capture_console (self s)).

(** The errors logged. *)
Definition is_error_log (e : event) : bool :=
  match e with
  | Log Error _ => true
  | _ => false
  end.

(** [m], when it returns, has started the loop on the paths [l] and on no
    other. *)
Definition adds {A : Type} (l : list string) (m : M A) : Prop :=
  forall (s : Sys) (a : A) (s' : Sys),
    m s = (inr a, s') -> attempted (trace s') = attempted (trace s) ++ l.

(** Every character of [s] passes [f]. *)
Fixpoint all_chars (f : ascii -> bool) (s : string) : bool :=
  match s with
  | EmptyString => true
  | String c s' => f c && all_chars f s'
  end.

(** A command name as the denylist holds them: not empty, and made of
    characters that are neither blank nor [&]. *)
Definition plain_name (name : string) : bool :=
  negb (String.eqb name "")
  && all_chars (fun c => negb (PyStr.is_space c) && negb (Ascii.eqb c "&")) name.

(** The number of events of [t] that pass [p]. *)
Fixpoint count_events (p : event -> bool) (t : list event) : nat :=
  match t with
  | [] => 0
  | e :: rest => (if p e then 1 else 0) + count_events p rest
  end.

(** [m] makes at most [n] calls that pass [p], whether it returns or raises. *)
Definition bounded {A : Type} (p : event -> bool) (n : nat) (m : M A) : Prop :=
  forall s : Sys,
    count_events p (trace (snd (m s))) <= count_events p (trace s) + n.

(** The calls that delete a file the caller named. *)
Definition is_user_unlink (e : event) : bool :=
  match e with
  | Unlink (UserPath _) => true
  | _ => false
  end.

(** ** More notions the properties are stated with *)

Definition set_no_confirm (b : bool) (r : RichImg) : RichImg :=
  {| terminal_width := terminal_width r; terminal_theme := terminal_theme r;
     title := title r; capture_console := capture_console r;
     cmd := cmd r; snippet := snippet r; snippet_syntax := snippet_syntax r;
     img_paths := img_paths r; no_confirm := b; aborted := aborted r |}.

(** The guard of [pipe_command] finds nothing to ignore in the command of
    [o]. *)
Definition guard_allows (o : RichImg) : bool :=
  match cmd o with
  | Some c0 =>
      match find (contains_ignored (PyStr.strip c0)) IGNORE_COMMANDS with
      | Some _ => false
      | None => true
      end
  | None => false
  end.

(** The processes spawned. *)
Definition is_popen (e : event) : bool :=
  match e with
  | Popen _ => true
  | _ => false
  end.

(** The questions put to the user. *)
Definition is_ask (e : event) : bool :=
  match e with
  | Ask _ => true
  | _ => false
  end.

(** Every run of [m], returning or raising, takes a state to one related to
    it by [R]. *)
Definition preserves {A : Type} (R : Sys -> Sys -> Prop) (m : M A) : Prop :=
  forall s : Sys, R s (snd (m s)).

(** The files of the caller other than [paths] are the same in both
    states. *)
Definition same_outside (paths : list string) (s s' : Sys) : Prop :=
  forall u : string, ~ In u paths -> files s' !! UserPath u = files s !! UserPath u.

(** [o'] is [o] but for the record of the capture console, which is that of
    [o] or empty. *)
Definition same_object (o o' : RichImg) : Prop :=
  set_capture_console (capture_console o) o' = o
  /\ (capture_console o' = capture_console o \/ capture_console o' = []).

(** A file name of the working directory: 1 to 127 characters (at most 255
    bytes in UTF-8), none of them [/] or the null character, and not [.] or
    [..].  A path of this shape has the working directory for parent, which
    exists, and it is the one spelling of its file, but for the case of
    letters where the file system ignores it. *)
Definition file_name (f : string) : bool :=
  (1 <=? String.length f) && (String.length f <=? 127)
  && all_chars (fun c => negb (Ascii.eqb c "/") && negb (Ascii.eqb c zero)) f
  && negb (String.eqb f ".") && negb (String.eqb f "..").

(** [e], with a rasterizer whose conversions raise [err]. *)
Definition with_failing_conversion (err : exn) (e : Env) : Env :=
  {| shell_output := shell_output e;
     read_text := read_text e;
     ansi_decode := ansi_decode e;
     json_pretty := json_pretty e;
     svg_export := svg_export e;
     cairosvg_import := cairosvg_import e;
     svg2png := fun _ _ _ => inl err;
     svg2pdf := fun _ => inl err;
     confirm_ask := confirm_ask e;
     clock := clock e;
     py_hash := py_hash e |}.

(** ** The text that [__hash__] hashes *)

(** [str([getattr(self, attr) for attr in RICH_IMG_ATTRS])] *)
Definition hash_key (o : RichImg) : string :=
  str_of_list (map (getattr o) RICH_IMG_ATTRS).

(** [str([getattr(self, attr) for attr in RICH_IMG_ATTRS if attr != "img_paths"])] *)
Definition hash_key_no_fn (o : RichImg) : string :=
  str_of_list
    (map (getattr o) (filter (fun attr => attr <> Attr.img_paths) RICH_IMG_ATTRS)).

(** Every character. *)
Definition all_ascii : list ascii := map ascii_of_nat (seq 0 256).

(** Between the quotes [quote], the texts [repr] writes for two different
    characters never start one with the other, and none is empty or starts
    with the quote. *)
Definition repr_char_code_ok (quote : ascii) : bool :=
  forallb (fun c =>
             match PyStr.repr_char quote c with
             | EmptyString => false
             | String a _ => negb (Ascii.eqb a quote)
             end
             && forallb (fun c' =>
                           Ascii.eqb c c'
                           || negb (String.prefix (PyStr.repr_char quote c)
                                                  (PyStr.repr_char quote c')))
                        all_ascii)
          all_ascii.

(** The characters of the decimal text of an integer. *)
Definition is_digit_or_minus (c : ascii) : bool :=
  let n := nat_of_ascii c in
  ((48 <=? n) && (n <=? 57)) || (n =? 45).

(** * Properties *)

(** ** Identity: [__eq__], [__hash__], [_hash_no_fn] *)

Section Identity.

Lemma of_option_inj {A : Type} (f : A -> pyobj) (x y : option A) :
  (forall a b, f a = f b -> a = b) ->
  (forall a, f a <> ONone) ->
  of_option f x = of_option f y -> x = y.
Proof.
  intros Hinj Hnone. destruct x as [a|], y as [b|]; simpl; intros H.
  - f_equal. now apply Hinj.
  - now apply Hnone in H.
  - symmetry in H. now apply Hnone in H.
  - reflexivity.
Qed.

Lemma OInt_option_inj (x y : option Z) :
  of_option OInt x = of_option OInt y -> x = y.
Proof. apply of_option_inj; [intros a b; congruence | discriminate]. Qed.

Lemma OStr_option_inj (x y : option string) :
  of_option OStr x = of_option OStr y -> x = y.
Proof. apply of_option_inj; [intros a b; congruence | discriminate]. Qed.

(** The record of the seven compared attributes decides [__eq__]. *)
Lemma eq_true_iff (a b : RichImg) :
  __eq__ a b = true <->
  Forall (fun attr => getattr a attr = getattr b attr) RICH_IMG_ATTRS.
Proof.
  unfold __eq__. rewrite forallb_forall, Forall_forall.
  split; intros H attr Hin.
  - apply (bool_decide_eq_true_1 _), H. now apply list_elem_of_In.
  - apply bool_decide_eq_true_2, H. now apply list_elem_of_In.
Qed.

Lemma map_getattr_ext (a b : RichImg) (l : list Attr.t) :
  Forall (fun attr => getattr a attr = getattr b attr) l ->
  map (getattr a) l = map (getattr b) l.
Proof. induction 1; simpl; congruence. Qed.

End Identity.

(** C10. Two [RichImg] objects compare equal exactly when their
    [terminal_width], [terminal_theme], [title], mode ([cmd], [snippet],
    [snippet_syntax]) and [img_paths] are equal; objects that compare equal
    have the same [__hash__]; and [_hash_no_fn] is the same for two objects
    that agree on every compared attribute but [img_paths]. *)
Theorem RichImg_identity (env : Env) (a b : RichImg) :
  (__eq__ a b = true <->
     terminal_width a = terminal_width b /\
     terminal_theme a = terminal_theme b /\
     title a = title b /\
     (cmd a = cmd b /\ snippet a = snippet b /\ snippet_syntax a = snippet_syntax b) /\
     img_paths a = img_paths b)
  /\ (__eq__ a b = true -> __hash__ env a = __hash__ env b)
  /\ (terminal_width a = terminal_width b ->
      terminal_theme a = terminal_theme b ->
      title a = title b ->
      cmd a = cmd b -> snippet a = snippet b -> snippet_syntax a = snippet_syntax b ->
      _hash_no_fn env a = _hash_no_fn env b).
Proof.
  split; [|split].
  - rewrite eq_true_iff. unfold RICH_IMG_ATTRS.
    repeat rewrite Forall_cons. rewrite Forall_nil. simpl. split.
    + intros (Hw & Ht & Hti & Hc & Hs & Hsy & Hp & _).
      apply OInt_option_inj in Hw. apply OStr_option_inj in Ht, Hc, Hs, Hsy.
      repeat split; congruence.
    + intros (-> & -> & -> & (-> & -> & ->) & ->). repeat split.
  - intros H. apply eq_true_iff, map_getattr_ext in H.
    unfold __hash__. now rewrite H.
  - intros Hw Ht Hti Hc Hs Hsy. unfold _hash_no_fn. simpl.
    now rewrite Hw, Ht, Hti, Hc, Hs, Hsy.
Qed.

(** Two jobs for the same screenshot written to different files: they do not
    compare equal, and [_hash_no_fn] does not tell them apart. *)
Lemma RichImg_identity_witness :
  __eq__ (Demo.command_job "ls" ["a.svg"]) (Demo.command_job "ls" ["a.svg"]) = true
  /\ __hash__ Demo.env (Demo.command_job "ls" ["a.svg"])
     = __hash__ Demo.env (Demo.command_job "ls" ["a.svg"])
  /\ __eq__ (Demo.command_job "ls" ["a.svg"]) (Demo.command_job "ls" ["b.png"]) = false
  /\ _hash_no_fn Demo.env (Demo.command_job "ls" ["a.svg"])
     = _hash_no_fn Demo.env (Demo.command_job "ls" ["b.png"]).
Proof.
  pose proof (RichImg_identity Demo.env (Demo.command_job "ls" ["a.svg"])
                (Demo.command_job "ls" ["a.svg"])) as (_ & Hh & _).
  pose proof (RichImg_identity Demo.env (Demo.command_job "ls" ["a.svg"])
                (Demo.command_job "ls" ["b.png"])) as (_ & _ & Hn).
  split; [reflexivity|]. split; [apply Hh; reflexivity|].
  split; [reflexivity|]. apply Hn; reflexivity.
Defined.

(** ** Running the monad *)

Ltac run :=
  unfold mbind, M_bind, mret, M_ret, raise, try_except, log, emit, get_self,
    modify_self, get_files, write_file, delete_file; simpl.

Lemma console_print_all_run (l : list renderable) (s : Sys) :
  console_print_all l s
  = (inr tt, with_self (set_capture_console (capture_console (self s) ++ l) (self s)) s).
Proof.
  revert s. induction l as [|r l IH]; intros [[] f n t]; simpl.
  - unfold with_self, set_capture_console; simpl. now rewrite app_nil_r.
  - unfold console_print. run. rewrite IH.
    unfold with_self, set_capture_console; simpl. now rewrite <- app_assoc.
Qed.

(** ** The mode dispatch of [get_output] *)

(** C3. In snippet mode ([snippet] set, [cmd] unset) [get_output] does not
    run the snippet formatter: it writes the debug line meant for a job with
    neither command nor snippet and leaves [capture_console] as it was. *)
Theorem get_output_snippet_mode (env : Env) (s : Sys) (text : string) :
  cmd (self s) = None ->
  snippet (self s) = Some text ->
  get_output env s
  = (inr PyNone, with_trace (trace s ++ [Log Debug MsgNoCmdOrSnippet]) s).
Proof.
  intros Hc Hs. unfold get_output. run. now rewrite Hc, Hs.
Qed.

Lemma get_output_snippet_mode_witness :
  fst (format_snippetg Demo.env (Demo.start (Demo.snippet_job "{}" None ["out.svg"])))
  = inr PyNone
  /\ capture_console
       (self (snd (format_snippetg Demo.env
                     (Demo.start (Demo.snippet_job "{}" None ["out.svg"])))))
     = [JsonText "{}"]
  /\ capture_console
       (self (snd (get_output Demo.env
                     (Demo.start (Demo.snippet_job "{}" None ["out.svg"])))))
     = [].
Proof.
  split; [reflexivity|]. split; [reflexivity|].
  rewrite (get_output_snippet_mode Demo.env
             (Demo.start (Demo.snippet_job "{}" None ["out.svg"])) "{}");
    reflexivity.
Defined.

(** With neither a command nor a snippet, [get_output] calls a method the
    class does not have. *)
Lemma get_output_no_mode (env : Env) (s : Sys) :
  cmd (self s) = None ->
  snippet (self s) = None ->
  get_output env s = (inl AttributeError, s).
Proof.
  intros Hc Hs. unfold get_output. run. now rewrite Hc, Hs.
Qed.

(** In command mode [get_output] runs [pipe_command], whatever [snippet]
    holds. *)
Lemma get_output_command_mode (env : Env) (s : Sys) (c : string) :
  cmd (self s) = Some c ->
  get_output env s
  = match pipe_command env s with
    | (inl e, s') => (inl e, s')
    | (inr _, s') => (inr PyNone, s')
    end.
Proof.
  intros Hc. unfold get_output. run. rewrite Hc. simpl.
  unfold call_method. simpl. now destruct (pipe_command env s) as [[e|v] s'].
Qed.

(** ** The command guard and the capture of a command's output *)

Section Capture.

Variable env : Env.

Lemma pipe_command_no_command (s : Sys) :
  cmd (self s) = None ->
  pipe_command env s = (inr PyNone, with_trace (trace s ++ [Log Debug MsgNoCommand]) s).
Proof. intros H. unfold pipe_command. run. now rewrite H. Qed.

(** A command the guard stops: [False] is returned, the object is marked
    aborted, one warning is logged; no file and no process is touched. *)
Lemma pipe_command_rejected (s : Sys) (c0 ignore : string) :
  cmd (self s) = Some c0 ->
  find (contains_ignored (PyStr.strip c0)) IGNORE_COMMANDS = Some ignore ->
  pipe_command env s
  = (inr (PyBool false),
     {| self := set_aborted true (set_cmd (Some (PyStr.strip c0)) (self s));
        files := files s;
        tmp_count := tmp_count s;
        trace := trace s ++ [Log Warning (MsgIgnoring ignore (PyStr.strip c0))] |}).
Proof.
  intros Hc Hf. unfold pipe_command, mbind, M_bind, get_self, modify_self.
  cbv beta iota. rewrite Hc. cbv beta iota zeta. now rewrite Hf.
Qed.

(** A command the guard lets through is run. *)
Lemma pipe_command_allowed (s : Sys) (c0 : string) :
  cmd (self s) = Some c0 ->
  find (contains_ignored (PyStr.strip c0)) IGNORE_COMMANDS = None ->
  pipe_command env s
  = run_and_capture env (PyStr.strip c0)
      (with_self (set_cmd (Some (PyStr.strip c0)) (self s)) s).
Proof.
  intros Hc Hf. unfold pipe_command, mbind, M_bind, get_self, modify_self.
  cbv beta iota. rewrite Hc. cbv beta iota zeta. now rewrite Hf.
Qed.

Lemma run_and_capture_decode_error (c : string) (s : Sys) (e : exn) :
  read_text env (shell_output env c) = inl e ->
  run_and_capture env c s = (inl e, spawned env c s).
Proof.
  intros Hr. unfold run_and_capture, mkstemp, popen, read_text_file, read_file, spawned.
  run. destruct (String.eqb (title (self s)) ""); simpl;
    rewrite lookup_insert_eq, Hr; unfold with_files, with_trace; simpl;
    rewrite insert_insert_eq, <- !app_assoc; reflexivity.
Qed.

Lemma run_and_capture_decoded (c : string) (s : Sys) (text : string) :
  read_text env (shell_output env c) = inr text ->
  run_and_capture env c s
  = (inl AttributeError,
     printed (map AnsiText (ansi_decode env text)) (spawned env c s)).
Proof.
  intros Hr.
  unfold run_and_capture, mkstemp, popen, read_text_file, read_file, printed, spawned.
  run. destruct (String.eqb (title (self s)) ""); simpl;
    rewrite lookup_insert_eq, Hr, console_print_all_run;
    unfold datetime_now, with_files, with_trace, with_self; simpl;
    rewrite insert_insert_eq, <- !app_assoc; reflexivity.
Qed.

End Capture.

(** C7. On the success path of a command capture (the guard lets the command
    through and its output decodes) [pipe_command] does not reach its
    clean-up: [datetime.now()] raises [AttributeError] after the output has
    been printed to the capture console, so the temporary output file is
    still there and no debug log file has been written. *)
Theorem pipe_command_success_path (env : Env) (s : Sys) (c0 text : string) :
  cmd (self s) = Some c0 ->
  find (contains_ignored (PyStr.strip c0)) IGNORE_COMMANDS = None ->
  read_text env (shell_output env (PyStr.strip c0)) = inr text ->
  pipe_command env s
  = (inl AttributeError,
     printed (map AnsiText (ansi_decode env text))
       (spawned env (PyStr.strip c0)
          (with_self (set_cmd (Some (PyStr.strip c0)) (self s)) s)))
  /\ files (snd (pipe_command env s)) !! TmpPath (tmp_count s) EmptyString
     = Some (shell_output env (PyStr.strip c0))
  /\ (forall name : string,
        files (snd (pipe_command env s)) !! UserPath name = files s !! UserPath name)
  /\ (forall src dst : path, ~ In (CopyFile src dst) (trace s) ->
        ~ In (CopyFile src dst) (trace (snd (pipe_command env s))))
  /\ (forall p : path, ~ In (Unlink p) (trace s) ->
        ~ In (Unlink p) (trace (snd (pipe_command env s)))).
Proof.
  intros Hc Hf Hr.
  rewrite (pipe_command_allowed env s c0 Hc Hf).
  rewrite (run_and_capture_decoded env _ _ text Hr).
  split; [reflexivity|]. simpl.
  split; [apply lookup_insert_eq|].
  split; [intros name; now apply lookup_insert_ne|].
  split; intros * Hn Hin; apply in_app_or in Hin as [Hin|Hin];
    try contradiction; simpl in Hin; intuition discriminate.
Qed.

Lemma pipe_command_success_path_witness :
  fst (pipe_command Demo.env (Demo.start (Demo.command_job "echo hello" ["out.svg"])))
  = inl AttributeError
  /\ files (snd (pipe_command Demo.env
                   (Demo.start (Demo.command_job "echo hello" ["out.svg"]))))
       !! TmpPath 0 EmptyString
     = Some "out of echo hello".
Proof.
  pose proof (pipe_command_success_path Demo.env
                (Demo.start (Demo.command_job "echo hello" ["out.svg"]))
                "echo hello" "out of echo hello" eq_refl eq_refl eq_refl)
    as (H1 & H2 & _).
  split; [now rewrite H1 | exact H2].
Defined.

(** C6 (as amended). A decode or IO error met while reading the captured
    output is not logged: it is raised to the caller as it is, and nothing is
    printed to the capture console. *)
Theorem pipe_command_decode_error (env : Env) (s : Sys) (c0 : string) (e : exn) :
  cmd (self s) = Some c0 ->
  find (contains_ignored (PyStr.strip c0)) IGNORE_COMMANDS = None ->
  read_text env (shell_output env (PyStr.strip c0)) = inl e ->
  pipe_command env s
  = (inl e,
     spawned env (PyStr.strip c0)
       (with_self (set_cmd (Some (PyStr.strip c0)) (self s)) s))
  /\ capture_console (self (snd (pipe_command env s))) = capture_console (self s)
  /\ List.filter is_error_log (trace (snd (pipe_command env s)))
     = List.filter is_error_log (trace s).
Proof.
  intros Hc Hf Hr.
  rewrite (pipe_command_allowed env s c0 Hc Hf).
  rewrite (run_and_capture_decode_error env _ _ e Hr).
  split; [reflexivity|]. simpl. split.
  - now destruct (String.eqb (title (self s)) "").
  - rewrite List.filter_app. simpl. now rewrite app_nil_r.
Qed.

Lemma pipe_command_decode_error_witness :
  pipe_command (Demo.set_undecodable Demo.env)
    (Demo.start (Demo.command_job "echo hello" ["out.svg"]))
  = (inl UnicodeDecodeError,
     spawned (Demo.set_undecodable Demo.env) "echo hello"
       (Demo.start (Demo.command_job "echo hello" ["out.svg"]))).
Proof.
  exact (proj1 (pipe_command_decode_error (Demo.set_undecodable Demo.env)
                  (Demo.start (Demo.command_job "echo hello" ["out.svg"]))
                  "echo hello" UnicodeDecodeError eq_refl eq_refl eq_refl)).
Defined.

(** C6, the claim as stated fails: with a codec that rejects the output of
    [echo hello], [pipe_command] returns no value (the error goes to the
    caller) and the only line logged is the one that announces the command. *)
Lemma decode_error_reaches_caller :
  let out := pipe_command (Demo.set_undecodable Demo.env)
               (Demo.start (Demo.command_job "echo hello" ["out.svg"])) in
  (forall v : pyval, fst out <> inr v)
  /\ (forall lvl msg, In (Log lvl msg) (trace (snd out)) ->
        lvl = Debug /\ msg = MsgRunning "echo hello").
Proof.
  split.
  - intros v. vm_compute. discriminate.
  - intros lvl msg. vm_compute. intros [H|[H|[H|[H|[]]]]]; inversion H; auto.
Qed.

(** C2. The command [echo hi; rm -rf /] has a segment that, trimmed, starts
    with the denylisted [rm], so the guard of the specification rejects it;
    [pipe_command] splits on the two-character text [&;] only, finds one
    part, does not reject, leaves [aborted] unset and spawns the process. *)
Theorem guard_misses_sequenced_command (env : Env) :
  let c := "echo hi; rm -rf /" in
  let out := pipe_command env (Demo.start (Demo.command_job c ["out.svg"])) in
  Spec.rejects c = true
  /\ PyStr.split c "&;" = [c]
  /\ fst out <> inr (PyBool false)
  /\ aborted (self (snd out)) = false
  /\ In (Popen "script -q /dev/null echo hi; rm -rf / 2>&1 > /tmp/tmp0")
        (trace (snd out)).
Proof.
  intros c out. split; [reflexivity|]. split; [reflexivity|].
  subst out.
  rewrite (pipe_command_allowed env
             (Demo.start (Demo.command_job c ["out.svg"])) c eq_refl eq_refl).
  change (PyStr.strip c) with c.
  destruct (read_text env (shell_output env c)) as [e|text] eqn:Hr.
  - rewrite (run_and_capture_decode_error env _ _ e Hr).
    split; [discriminate|]. split; [reflexivity|]. simpl. auto.
  - rewrite (run_and_capture_decoded env _ _ text Hr).
    split; [discriminate|]. split; [reflexivity|]. simpl. auto.
Qed.

(** ** The snippet formatter *)

Section Snippet.

Variable env : Env.

Lemma format_snippetg_no_snippet (s : Sys) :
  snippet (self s) = None ->
  format_snippetg env s = (inr PyNone, with_trace (trace s ++ [Log Debug MsgNoSnippet]) s).
Proof. intros H. unfold format_snippetg. run. now rewrite H. Qed.

(** X7. A snippet with a language tag other than [json] goes to the generic
    highlighter with that tag, unmodified. *)
Lemma format_snippetg_highlight (s : Sys) (text tag : string) :
  snippet (self s) = Some text ->
  snippet_syntax (self s) = Some tag ->
  tag <> "json" ->
  format_snippetg env s
  = (inr PyNone,
     with_trace (trace s ++ [Log Info MsgFormattingSnippet;
                             Log Debug (MsgFormattingAs (Some tag))])
       (printed [SyntaxBlock text (Some tag)] s)).
Proof.
  intros Hs Hy Hne. unfold format_snippetg, print_json, console_print. run.
  rewrite Hs, Hy. simpl.
  rewrite bool_decide_eq_false_2 by congruence. simpl.
  unfold printed, with_trace, with_self; simpl. rewrite Hy, <- app_assoc. reflexivity.
Qed.

End Snippet.

(** C8. When the language tag is unset or equals [json], the snippet is
    parsed and pretty-printed as JSON; a JSON parse failure is not fatal: the
    unmodified text goes to the generic highlighter with the tag as it is,
    and the highlighter works with the lexer the tag names, [json], or with
    the lexer [text] when the tag is absent. *)
Theorem format_snippetg_json
        (env : Env) (knows : string -> bool) (s : Sys) (text : string) :
  snippet (self s) = Some text ->
  snippet_syntax (self s) = None \/ snippet_syntax (self s) = Some "json" ->
  knows "json" = true ->
  (forall pretty : string,
      json_pretty env text = Some pretty ->
      format_snippetg env s
      = (inr PyNone,
         with_trace (trace s ++ [Log Info MsgFormattingSnippet;
                                 Log Debug MsgFormattingJSON])
           (printed [JsonText pretty] s)))
  /\ (json_pretty env text = None ->
      format_snippetg env s
      = (inr PyNone,
         with_trace (trace s ++ [Log Info MsgFormattingSnippet;
                                 Log Debug (MsgFormattingAs (snippet_syntax (self s)))])
           (printed [SyntaxBlock text (snippet_syntax (self s))] s))
      /\ highlight_lexer knows (snippet_syntax (self s))
         = match snippet_syntax (self s) with
           | Some tag => tag
           | None => "text"
           end).
Proof.
  intros Hs Hy Hk.
  assert (Hb : bool_decide (snippet_syntax (self s) = Some "json")
               || bool_decide (snippet_syntax (self s) = None) = true).
  { destruct Hy as [Hy|Hy]; rewrite Hy; reflexivity. }
  split.
  - intros pretty Hj. unfold format_snippetg, print_json, console_print. run.
    rewrite Hs. simpl. rewrite Hb, Hj.
    unfold printed, with_trace, with_self; simpl. rewrite <- app_assoc. reflexivity.
  - intros Hj. split.
    + unfold format_snippetg, print_json, console_print. run.
      rewrite Hs. simpl. rewrite Hb, Hj.
      unfold printed, with_trace, with_self; simpl. rewrite <- app_assoc. reflexivity.
    + destruct Hy as [Hy|Hy]; rewrite Hy; unfold highlight_lexer, Syntax_lexer;
        [reflexivity|now rewrite Hk].
Qed.

Lemma format_snippetg_json_witness :
  capture_console
    (self (snd (format_snippetg Demo.env
                  (Demo.start (Demo.snippet_job "{}" None ["out.svg"])))))
  = [JsonText "{}"]
  /\ (let s := Demo.start (Demo.snippet_job "{" (Some "json") ["out.svg"]) in
      capture_console (self (snd (format_snippetg Demo.env s)))
      = [SyntaxBlock "{" (Some "json")]
      /\ highlight_lexer Demo.get_lexer_by_name (snippet_syntax (self s)) = "json")
  /\ (let s := Demo.start (Demo.snippet_job "{" None ["out.svg"]) in
      capture_console (self (snd (format_snippetg Demo.env s)))
      = [SyntaxBlock "{" None]
      /\ highlight_lexer Demo.get_lexer_by_name (snippet_syntax (self s)) = "text").
Proof.
  split; [|split].
  - destruct (format_snippetg_json Demo.env Demo.get_lexer_by_name
                (Demo.start (Demo.snippet_job "{}" None ["out.svg"])) "{}"
                eq_refl (or_introl eq_refl) eq_refl) as [H _].
    now rewrite (H "{}" eq_refl).
  - intros s.
    destruct (format_snippetg_json Demo.env Demo.get_lexer_by_name s "{"
                eq_refl (or_intror eq_refl) eq_refl) as [_ H].
    destruct (H eq_refl) as [H1 H2]. split; [now rewrite H1|exact H2].
  - intros s.
    destruct (format_snippetg_json Demo.env Demo.get_lexer_by_name s "{"
                eq_refl (or_introl eq_refl) eq_refl) as [_ H].
    destruct (H eq_refl) as [H1 H2]. split; [now rewrite H1|exact H2].
Defined.

(** ** The image exporter *)

Section Exporter.

Variable env : Env.

Lemma if_none (b : bool) : (if b then @None path else None) = None.
Proof. now destruct b. Qed.

Lemma copyfile_ok (s : Sys) (src dst : path) (bytes : string) :
  files s !! src = Some bytes ->
  src <> dst ->
  copyfile src dst s
  = (inr tt,
     {| self := self s;
        files := <[dst := bytes]> (files s);
        tmp_count := tmp_count s;
        trace := trace s ++ [CopyFile src dst] |}).
Proof.
  intros Hs Hne. unfold copyfile. run. rewrite Hs.
  now rewrite decide_False by assumption.
Qed.

Lemma copyfile_same (s : Sys) (p : path) (bytes : string) :
  files s !! p = Some bytes ->
  copyfile p p s = (inl SameFileError, with_trace (trace s ++ [CopyFile p p]) s).
Proof.
  intros Hs. unfold copyfile. run. rewrite Hs.
  now rewrite decide_True by reflexivity.
Qed.

Lemma copyfile_missing (s : Sys) (src dst : path) :
  files s !! src = None ->
  copyfile src dst s
  = (inl FileNotFoundError, with_trace (trace s ++ [CopyFile src dst]) s).
Proof. intros Hs. unfold copyfile. run. now rewrite Hs. Qed.

Lemma is_png_not_pdf (filename : string) :
  is_png filename = true -> is_pdf filename = false.
Proof.
  unfold is_png, is_pdf.
  induction (PyStr.lower filename) as [|c t IH]; cbn [PyStr.endswith].
  - discriminate.
  - intros H. apply orb_true_iff in H as [H|H].
    + apply String.eqb_eq in H. inversion H; subst. reflexivity.
    + rewrite (IH H), orb_false_r. apply not_true_is_false. intros E.
      apply String.eqb_eq in E. inversion E; subst. discriminate.
Qed.

(** Once an SVG exists and no PNG or PDF was made, every later path gets a
    copy of the SVG, whatever its extension. *)
Lemma save_loop_copies_svg (rest : list string) :
  forall (s : Sys) (src : path) (bytes : string),
    files s !! src = Some bytes ->
    ~ In src (map UserPath rest) ->
    save_loop env rest (Some src) None None s
    = (inr tt,
       {| self := self s;
          files := copy_all bytes rest (files s);
          tmp_count := tmp_count s;
          trace := trace s ++ copy_events src rest |}).
Proof.
  induction rest as [|f rest IH]; intros s src bytes Hs Hnin.
  - simpl. unfold copy_events, copy_all. simpl. rewrite app_nil_r. now destruct s.
  - simpl in Hnin. apply Decidable.not_or in Hnin as [Hne Hnin].
    cbn [save_loop]. unfold mkdir_parent. run.
    rewrite !if_none.
    rewrite (copyfile_ok _ src (UserPath f) bytes) by (simpl; auto).
    rewrite (IH _ src bytes); simpl.
    + unfold copy_events. simpl. now rewrite <- !app_assoc.
    + rewrite lookup_insert_ne by auto. exact Hs.
    + exact Hnin.
Qed.

(** Once a PNG exists, every later PNG path gets a copy of it. *)
Lemma save_loop_copies_png (rest : list string) :
  forall (s : Sys) (svg_img : option path) (src : path) (bytes : string),
    Forall (fun f => is_png f = true) rest ->
    files s !! src = Some bytes ->
    ~ In src (map UserPath rest) ->
    save_loop env rest svg_img (Some src) None s
    = (inr tt,
       {| self := self s;
          files := copy_all bytes rest (files s);
          tmp_count := tmp_count s;
          trace := trace s ++ copy_events src rest |}).
Proof.
  induction rest as [|f rest IH]; intros s svg_img src bytes Hall Hs Hnin.
  - simpl. unfold copy_events, copy_all. simpl. rewrite app_nil_r. now destruct s.
  - simpl in Hnin. apply Decidable.not_or in Hnin as [Hne Hnin].
    inversion Hall as [|? ? Hf Hrest]; subst.
    cbn [save_loop]. unfold mkdir_parent. run. rewrite Hf.
    rewrite (copyfile_ok _ src (UserPath f) bytes) by (simpl; auto).
    rewrite (IH _ svg_img src bytes); simpl.
    + unfold copy_events. simpl. now rewrite <- !app_assoc.
    + exact Hrest.
    + rewrite lookup_insert_ne by auto. exact Hs.
    + exact Hnin.
Qed.

(** The first round of the loop for a path that is neither PNG nor PDF:
    the SVG is written to the path itself. *)
Lemma save_loop_first_svg (f : string) (rest : list string) (s : Sys) :
  is_png f = false ->
  is_pdf f = false ->
  save_loop env (f :: rest) None None None s
  = save_loop env rest (Some (UserPath f)) None None
      {| self := set_capture_console [] (self s);
         files := <[UserPath f := rendered_svg env s]> (files s);
         tmp_count := tmp_count s;
         trace := trace s ++ [Log Debug (MsgSaving f); Mkdir f;
                              SaveSvg (UserPath f) (title (self s))] |}.
Proof.
  intros Hpng Hpdf. cbn [save_loop]. unfold mkdir_parent, save_svg. run.
  rewrite Hpng, Hpdf. simpl. unfold with_files, with_trace, rendered_svg. simpl.
  now rewrite <- !app_assoc.
Qed.

(** The first round of the loop for a PNG or PDF path when cairosvg cannot
    be imported: the SVG is written to a temporary file, the path is
    skipped, and the temporary file stays. *)
Lemma save_loop_first_skipped (f : string) (rest : list string) (s : Sys) (e : exn) :
  is_png f || is_pdf f = true ->
  cairosvg_import env = Some e ->
  is_ImportError e || is_OSError e = true ->
  save_loop env (f :: rest) None None None s
  = save_loop env rest (Some (TmpPath (tmp_count s) ".svg")) None None
      {| self := set_capture_console [] (self s);
         files := <[TmpPath (tmp_count s) ".svg" := rendered_svg env s]> (files s);
         tmp_count := S (tmp_count s);
         trace := trace s ++ [Log Debug (MsgSaving f); Mkdir f;
                              Mkstemp (TmpPath (tmp_count s) ".svg");
                              SaveSvg (TmpPath (tmp_count s) ".svg") (title (self s))]
                          ++ skip_log e f |}.
Proof.
  intros Hr Hi He. cbn [save_loop].
  unfold mkdir_parent, save_svg, mkstemp, lazy_load_cairosvg, skip_log. run.
  rewrite !if_none, Hr, Hi. simpl.
  destruct (is_ImportError e) eqn:Himp; simpl.
  - unfold with_files, with_trace, rendered_svg. simpl.
    now rewrite insert_insert_eq, <- !app_assoc.
  - simpl in He. rewrite He. simpl.
    unfold with_files, with_trace, rendered_svg. simpl.
    now rewrite insert_insert_eq, <- !app_assoc.
Qed.

(** The first round of the loop for a PNG path when cairosvg works: the SVG
    is written to a temporary file, rasterized, and the temporary file is
    deleted. *)
Lemma save_loop_first_png (f : string) (rest : list string) (s : Sys) (png : string) :
  is_png f = true ->
  cairosvg_import env = None ->
  svg2png env (rendered_svg env s) 300 4000 = inr png ->
  save_loop env (f :: rest) None None None s
  = save_loop env rest (Some (TmpPath (tmp_count s) ".svg")) (Some (UserPath f)) None
      {| self := set_capture_console [] (self s);
         files := <[UserPath f := png]> (delete (TmpPath (tmp_count s) ".svg") (files s));
         tmp_count := S (tmp_count s);
         trace := trace s ++ [Log Debug (MsgSaving f); Mkdir f;
                              Mkstemp (TmpPath (tmp_count s) ".svg");
                              SaveSvg (TmpPath (tmp_count s) ".svg") (title (self s));
                              Svg2Png (TmpPath (tmp_count s) ".svg") f;
                              Unlink (TmpPath (tmp_count s) ".svg")] |}.
Proof.
  intros Hpng Hi Hc. cbn [save_loop].
  unfold mkdir_parent, save_svg, mkstemp, lazy_load_cairosvg, call_svg2png,
    unlink, read_file.
  run. rewrite Hpng, (is_png_not_pdf f Hpng), Hi. simpl.
  rewrite lookup_insert_eq. unfold rendered_svg in Hc. rewrite Hc. simpl.
  rewrite lookup_insert_ne by discriminate. rewrite lookup_insert_eq. simpl.
  unfold with_files, with_trace. simpl.
  rewrite delete_insert_ne by discriminate.
  now rewrite !delete_insert_eq, <- !app_assoc.
Qed.

Lemma copy_all_cons (bytes f : string) (paths : list string) (fs : gmap path string) :
  copy_all bytes (f :: paths) fs = copy_all bytes paths (<[UserPath f := bytes]> fs).
Proof. reflexivity. Qed.

Lemma copy_all_lookup_other (bytes : string) (paths : list string) :
  forall (fs : gmap path string) (p : path),
    ~ In p (map UserPath paths) -> copy_all bytes paths fs !! p = fs !! p.
Proof.
  induction paths as [|f paths IH]; intros fs p Hnin.
  - reflexivity.
  - simpl in Hnin. apply Decidable.not_or in Hnin as [Hne Hnin].
    rewrite copy_all_cons, IH by assumption. now apply lookup_insert_ne.
Qed.

Lemma copy_all_lookup (bytes : string) (paths : list string) :
  forall (fs : gmap path string) (f : string),
    In f paths -> copy_all bytes paths fs !! UserPath f = Some bytes.
Proof.
  induction paths as [|g paths IH]; intros fs f Hin.
  - destruct Hin.
  - rewrite copy_all_cons. destruct (in_dec string_dec f paths) as [Hi|Hn].
    + now apply IH.
    + destruct Hin as [->|Hin]; [|contradiction].
      rewrite (copy_all_lookup_other bytes paths).
      * apply lookup_insert_eq.
      * intros Hm. apply in_map_iff in Hm as (x & Hx & Hxin).
        inversion Hx; subst. contradiction.
Qed.

End Exporter.

(** ** Which paths the export loop starts on *)

Section Attempted.

Variable env : Env.

Lemma attempted_app (t1 t2 : list event) :
  attempted (t1 ++ t2) = attempted t1 ++ attempted t2.
Proof.
  induction t1 as [|e t1 IH]; simpl; [reflexivity|].
  destruct e; simpl; now rewrite ?IH.
Qed.

Lemma adds_ret {A : Type} (a : A) : adds [] (mret a).
Proof. intros s b s' H. inversion H; subst. now rewrite app_nil_r. Qed.

Lemma adds_raise {A : Type} (l : list string) (e : exn) : adds l (@raise A e).
Proof. intros s b s' H. discriminate. Qed.

Lemma adds_bind {A B : Type} (l1 l2 : list string) (m : M A) (k : A -> M B) :
  adds l1 m -> (forall a, adds l2 (k a)) -> adds (l1 ++ l2) (mbind k m).
Proof.
  intros Hm Hk s b s' H. unfold mbind, M_bind in H.
  destruct (m s) as [[e|a] s1] eqn:E; [discriminate|].
  rewrite (Hk a _ _ _ H), (Hm _ _ _ E). now rewrite app_assoc.
Qed.

Lemma adds_bind_nil {A B : Type} (l : list string) (m : M A) (k : A -> M B) :
  adds [] m -> (forall a, adds l (k a)) -> adds l (mbind k m).
Proof. intros Hm Hk. now apply (adds_bind [] l). Qed.

Lemma adds_emit (e : event) : attempted [e] = [] -> adds [] (emit e).
Proof.
  intros He s b s' H. inversion H; subst. simpl.
  now rewrite attempted_app, He.
Qed.

Lemma adds_mkdir (filename : string) : adds [filename] (mkdir_parent filename).
Proof. intros s b s' H. inversion H; subst. simpl. now rewrite attempted_app. Qed.

Lemma adds_state {A : Type} (m : M A) :
  (forall s, trace (snd (m s)) = trace s) -> adds [] m.
Proof.
  intros Hm s b s' H. specialize (Hm s). rewrite H in Hm. simpl in Hm.
  now rewrite Hm, app_nil_r.
Qed.

Lemma adds_if {A : Type} (l : list string) (b : bool) (m1 m2 : M A) :
  adds l m1 -> adds l m2 -> adds l (if b then m1 else m2).
Proof. now destruct b. Qed.

Ltac adds_step :=
  first [ apply adds_ret
        | apply adds_raise
        | apply adds_emit; reflexivity
        | apply adds_state; intros ?; reflexivity
        | apply adds_if
        | apply adds_bind_nil; [|intros ?] ].

Lemma adds_read_file (p : path) : adds [] (read_file p).
Proof.
  intros s b s' H. unfold read_file in H. revert H. run.
  destruct (files s !! p); intros H; inversion H; subst. now rewrite app_nil_r.
Qed.

Lemma adds_copyfile (src dst : path) : adds [] (copyfile src dst).
Proof.
  intros s b s' H. unfold copyfile in H. revert H. run.
  destruct (files s !! src); [|discriminate].
  destruct (decide (src = dst)); [discriminate|].
  intros H; inversion H; subst. simpl. now rewrite attempted_app.
Qed.

Lemma adds_unlink (p : path) : adds [] (unlink p).
Proof.
  intros s b s' H. unfold unlink in H. revert H. run.
  destruct (files s !! p); [|discriminate].
  intros H; inversion H; subst. simpl. now rewrite attempted_app.
Qed.

Lemma adds_mkstemp (suffix : string) : adds [] (mkstemp suffix).
Proof.
  intros s b s' H. inversion H; subst. simpl. now rewrite attempted_app.
Qed.

Lemma adds_save_svg (p : path) (ttl : string) : adds [] (save_svg env p ttl).
Proof. unfold save_svg. repeat adds_step. Qed.

Lemma adds_call_svg2png (src : path) (dst : string) : adds [] (call_svg2png env src dst).
Proof.
  unfold call_svg2png. adds_step. adds_step.
  apply adds_bind_nil; [apply adds_read_file|intros bytes].
  destruct (svg2png env bytes 300 4000); repeat adds_step.
Qed.

Lemma adds_call_svg2pdf (src : path) (dst : string) : adds [] (call_svg2pdf env src dst).
Proof.
  unfold call_svg2pdf. adds_step. adds_step.
  apply adds_bind_nil; [apply adds_read_file|intros bytes].
  destruct (svg2pdf env bytes); repeat adds_step.
Qed.

Lemma adds_lazy_load_cairosvg (filename : string) :
  adds [] (lazy_load_cairosvg env filename).
Proof.
  unfold lazy_load_cairosvg, log.
  destruct (cairosvg_import env) as [e|]; [|apply adds_ret].
  destruct (is_ImportError e); [repeat adds_step|].
  destruct (is_OSError e); repeat adds_step.
Qed.

(** Every round of the loop that is started is recorded, in order. *)
Lemma adds_save_loop (paths : list string) :
  forall svg_img png_img pdf_img : option path,
    adds paths (save_loop env paths svg_img png_img pdf_img).
Proof.
  induction paths as [|f rest IH]; intros svg_img png_img pdf_img.
  - apply adds_ret.
  - cbn [save_loop]. unfold log.
    apply adds_bind_nil; [apply adds_emit; reflexivity|intros _].
    apply (adds_bind [f] rest); [apply adds_mkdir|intros _].
    destruct (if is_png f then png_img else None) as [png|].
    { apply adds_bind_nil; [apply adds_copyfile|intros _]. apply IH. }
    destruct (if is_pdf f then pdf_img else None) as [pdf|].
    { apply adds_bind_nil; [apply adds_copyfile|intros _]. apply IH. }
    destruct svg_img as [svg|].
    { apply adds_bind_nil; [apply adds_copyfile|intros _]. apply IH. }
    apply adds_bind_nil.
    { apply adds_if; [apply adds_mkstemp|apply adds_ret]. }
    intros svg_filename.
    apply adds_bind_nil; [apply adds_state; intros ?; reflexivity|intros o].
    apply adds_bind_nil; [apply adds_save_svg|intros _].
    apply adds_bind_nil.
    { apply adds_if; [apply adds_lazy_load_cairosvg|apply adds_ret]. }
    intros [|]; [|apply IH].
    apply adds_bind_nil.
    { apply adds_if; [|apply adds_ret].
      apply adds_bind_nil; [apply adds_call_svg2png|intros _].
      apply adds_bind_nil; [apply adds_unlink|intros _]. apply adds_ret. }
    intros png_img'.
    apply adds_bind_nil.
    { apply adds_if; [|apply adds_ret].
      apply adds_bind_nil; [apply adds_call_svg2pdf|intros _].
      apply adds_bind_nil; [apply adds_unlink|intros _]. apply adds_ret. }
    intros pdf_img'. apply IH.
Qed.

End Attempted.

(** ** [save_images] as a whole *)

Section SaveImages.

Variable env : Env.

Lemma save_images_aborted (s : Sys) :
  aborted (self s) = true -> save_images env s = (inr PyNone, s).
Proof. intros H. unfold save_images. run. now rewrite H. Qed.

Lemma save_images_no_paths (s : Sys) :
  aborted (self s) = false ->
  img_paths (self s) = [] ->
  save_images env s
  = (inr PyNone, with_trace (trace s ++ [Log Warning MsgNoPaths]) s).
Proof. intros Ha Hp. unfold save_images. run. now rewrite Ha, Hp. Qed.

Lemma save_images_loop (s : Sys) :
  aborted (self s) = false ->
  img_paths (self s) <> [] ->
  save_images env s
  = match save_loop env (img_paths (self s)) None None None s with
    | (inl e, s') => (inl e, s')
    | (inr _, s') => (inr (PyInt (Z.of_nat (length (img_paths (self s))))), s')
    end.
Proof.
  intros Ha Hp. unfold save_images. run. rewrite Ha.
  destruct (img_paths (self s)) as [|f rest]; [contradiction|]. reflexivity.
Qed.

(** The first path is an SVG (or any path that is neither PNG nor PDF) and
    does not come again: the SVG is rendered to it and copied to every
    later path. *)
Lemma save_images_svg_first (s : Sys) (f : string) (rest : list string) :
  aborted (self s) = false ->
  img_paths (self s) = f :: rest ->
  is_png f = false ->
  is_pdf f = false ->
  ~ In f rest ->
  save_images env s
  = (inr (PyInt (Z.of_nat (S (length rest)))),
     {| self := set_capture_console [] (self s);
        files := copy_all (rendered_svg env s) rest
                   (<[UserPath f := rendered_svg env s]> (files s));
        tmp_count := tmp_count s;
        trace := (trace s ++ [Log Debug (MsgSaving f); Mkdir f;
                              SaveSvg (UserPath f) (title (self s))])
                 ++ copy_events (UserPath f) rest |}).
Proof.
  intros Ha Hp Hpng Hpdf Hnin.
  rewrite save_images_loop by (assumption || now rewrite Hp).
  rewrite Hp, (save_loop_first_svg env f rest s Hpng Hpdf).
  rewrite (save_loop_copies_svg env rest _ (UserPath f) (rendered_svg env s)).
  - reflexivity.
  - apply lookup_insert_eq.
  - intros Hm. apply in_map_iff in Hm as (x & Hx & Hxin).
    inversion Hx; subst. contradiction.
Qed.

(** The first path is a PNG or a PDF and cairosvg cannot be imported: the
    SVG is rendered to a temporary file, the first path is skipped, and
    the temporary file is copied to every later path. *)
Lemma save_images_without_cairosvg (s : Sys) (f : string) (rest : list string)
      (e : exn) :
  aborted (self s) = false ->
  img_paths (self s) = f :: rest ->
  is_png f || is_pdf f = true ->
  cairosvg_import env = Some e ->
  is_ImportError e || is_OSError e = true ->
  save_images env s
  = (inr (PyInt (Z.of_nat (S (length rest)))),
     {| self := set_capture_console [] (self s);
        files := copy_all (rendered_svg env s) rest
                   (<[TmpPath (tmp_count s) ".svg" := rendered_svg env s]> (files s));
        tmp_count := S (tmp_count s);
        trace := (trace s ++ [Log Debug (MsgSaving f); Mkdir f;
                              Mkstemp (TmpPath (tmp_count s) ".svg");
                              SaveSvg (TmpPath (tmp_count s) ".svg") (title (self s))]
                          ++ skip_log e f)
                 ++ copy_events (TmpPath (tmp_count s) ".svg") rest |}).
Proof.
  intros Ha Hp Hr Hi He.
  rewrite save_images_loop by (assumption || now rewrite Hp).
  rewrite Hp, (save_loop_first_skipped env f rest s e Hr Hi He).
  rewrite (save_loop_copies_svg env rest _ (TmpPath (tmp_count s) ".svg")
             (rendered_svg env s)).
  - reflexivity.
  - apply lookup_insert_eq.
  - intros Hm. apply in_map_iff in Hm as (x & Hx & Hxin). discriminate.
Qed.

(** Every path is a PNG, the first does not come again, and cairosvg works:
    one SVG is rendered to a temporary file, rasterized once and deleted,
    and the first PNG is copied to every later path. *)
Lemma save_images_png_first (s : Sys) (f : string) (rest : list string)
      (png : string) :
  aborted (self s) = false ->
  img_paths (self s) = f :: rest ->
  Forall (fun g => is_png g = true) (f :: rest) ->
  ~ In f rest ->
  cairosvg_import env = None ->
  svg2png env (rendered_svg env s) 300 4000 = inr png ->
  save_images env s
  = (inr (PyInt (Z.of_nat (S (length rest)))),
     {| self := set_capture_console [] (self s);
        files := copy_all png rest
                   (<[UserPath f := png]>
                      (delete (TmpPath (tmp_count s) ".svg") (files s)));
        tmp_count := S (tmp_count s);
        trace := (trace s ++ [Log Debug (MsgSaving f); Mkdir f;
                              Mkstemp (TmpPath (tmp_count s) ".svg");
                              SaveSvg (TmpPath (tmp_count s) ".svg") (title (self s));
                              Svg2Png (TmpPath (tmp_count s) ".svg") f;
                              Unlink (TmpPath (tmp_count s) ".svg")])
                 ++ copy_events (UserPath f) rest |}).
Proof.
  intros Ha Hp Hall Hnin Hi Hc. inversion Hall as [|? ? Hf Hrest]; subst.
  rewrite save_images_loop by (assumption || now rewrite Hp).
  rewrite Hp, (save_loop_first_png env f rest s png Hf Hi Hc).
  rewrite (save_loop_copies_png env rest _ _ (UserPath f) png).
  - reflexivity.
  - exact Hrest.
  - apply lookup_insert_eq.
  - intros Hm. apply in_map_iff in Hm as (x & Hx & Hxin).
    inversion Hx; subst. contradiction.
Qed.

Lemma filter_copy_events (p : event -> bool) (src : path) (paths : list string) :
  (forall f, p (Log Debug (MsgSaving f)) = false) ->
  (forall f, p (Mkdir f) = false) ->
  (forall f, p (CopyFile src (UserPath f)) = false) ->
  List.filter p (copy_events src paths) = [].
Proof.
  intros H1 H2 H3. induction paths as [|f paths IH]; simpl; [reflexivity|].
  now rewrite H1, H2, H3.
Qed.

End SaveImages.

Lemma not_in_lower (u : string) (paths : list string) :
  ~ In (PyStr.lower u) (map PyStr.lower paths) -> ~ In u paths.
Proof. intros H Hin. apply H. now apply in_map. Qed.

Lemma in_copy_events (ev : event) (src : path) (paths : list string) :
  In ev (copy_events src paths) ->
  exists f, In f paths /\
            (ev = Log Debug (MsgSaving f) \/ ev = Mkdir f
             \/ ev = CopyFile src (UserPath f)).
Proof.
  induction paths as [|f paths IH]; simpl; [contradiction|].
  intros [H|[H|[H|H]]]; try (exists f; split; [now left|]; auto; fail).
  destruct (IH H) as (g & Hg & Hev). exists g. split; [now right|exact Hev].
Qed.

Lemma attempted_copy_events (src : path) (paths : list string) :
  attempted (copy_events src paths) = paths.
Proof. induction paths as [|f paths IH]; simpl; [reflexivity|]. now rewrite IH. Qed.

(** C1. When the first path is an SVG that does not come again,
    [save_images] copies that SVG onto every later path, whatever format the
    later path asks for: a later [.png] path receives the bytes of the SVG,
    not a PNG, and the rasterizer is never called.  There is one render
    pass. *)
Theorem svg_copied_to_every_later_path
        (env : Env) (s : Sys) (f : string) (rest : list string) :
  aborted (self s) = false ->
  img_paths (self s) = f :: rest ->
  is_png f = false ->
  is_pdf f = false ->
  ~ In f rest ->
  let out := save_images env s in
  fst out = inr (PyInt (Z.of_nat (S (length rest))))
  /\ (forall g, In g (f :: rest) ->
        files (snd out) !! UserPath g = Some (rendered_svg env s))
  /\ List.filter is_rasterization (trace (snd out))
     = List.filter is_rasterization (trace s)
  /\ List.filter is_render (trace (snd out))
     = List.filter is_render (trace s) ++ [SaveSvg (UserPath f) (title (self s))].
Proof.
  intros Ha Hp Hpng Hpdf Hnin out. subst out.
  rewrite (save_images_svg_first env s f rest Ha Hp Hpng Hpdf Hnin). simpl.
  split; [reflexivity|]. split; [|split].
  - intros g [<-|Hg].
    + rewrite copy_all_lookup_other; [apply lookup_insert_eq|].
      intros Hm. apply in_map_iff in Hm as (x & Hx & Hxin).
      inversion Hx; subst. contradiction.
    + now apply copy_all_lookup.
  - rewrite !List.filter_app, filter_copy_events by reflexivity. simpl.
    now rewrite !app_nil_r.
  - rewrite !List.filter_app, filter_copy_events by reflexivity. simpl.
    now rewrite app_nil_r.
Qed.

Lemma svg_copied_to_every_later_path_witness :
  let out := save_images Demo.env
               (Demo.start (Demo.command_job "ls" ["x.svg"; "x.png"; "y.png"])) in
  fst out = inr (PyInt 3)
  /\ files (snd out) !! UserPath "x.png" = files (snd out) !! UserPath "x.svg"
  /\ files (snd out) !! UserPath "y.png" = files (snd out) !! UserPath "x.svg"
  /\ List.filter is_rasterization (trace (snd out)) = []
  /\ List.filter is_render (trace (snd out)) = [SaveSvg (UserPath "x.svg") ""].
Proof.
  pose proof (svg_copied_to_every_later_path Demo.env
                (Demo.start (Demo.command_job "ls" ["x.svg"; "x.png"; "y.png"]))
                "x.svg" ["x.png"; "y.png"] eq_refl eq_refl eq_refl eq_refl) as H.
  destruct H as (H1 & H2 & H3 & H4).
  - simpl. intros [H|[H|[]]]; discriminate.
  - split; [exact H1|]. split; [|split; [|split]].
    + rewrite (H2 "x.png"), (H2 "x.svg"); simpl; auto.
    + rewrite (H2 "y.png"), (H2 "x.svg"); simpl; auto.
    + exact H3.
    + exact H4.
Defined.

(** C5. When the first path is a PNG or a PDF and cairosvg cannot be
    imported, [save_images] returns with the temporary SVG it made for the
    rasterizer still on disk: the file is never unlinked. *)
Theorem temp_svg_left_behind
        (env : Env) (s : Sys) (f : string) (rest : list string) (e : exn) :
  aborted (self s) = false ->
  img_paths (self s) = f :: rest ->
  is_png f || is_pdf f = true ->
  cairosvg_import env = Some e ->
  is_ImportError e || is_OSError e = true ->
  let out := save_images env s in
  fst out = inr (PyInt (Z.of_nat (S (length rest))))
  /\ In (Mkstemp (TmpPath (tmp_count s) ".svg")) (trace (snd out))
  /\ files (snd out) !! TmpPath (tmp_count s) ".svg" = Some (rendered_svg env s)
  /\ (forall p, In (Unlink p) (trace (snd out)) -> In (Unlink p) (trace s)).
Proof.
  intros Ha Hp Hr Hi He out. subst out.
  rewrite (save_images_without_cairosvg env s f rest e Ha Hp Hr Hi He). simpl.
  split; [reflexivity|]. split; [|split].
  - apply in_or_app. left. apply in_or_app. right. simpl. auto.
  - rewrite copy_all_lookup_other; [apply lookup_insert_eq|].
    intros Hm. apply in_map_iff in Hm as (x & Hx & Hxin). discriminate.
  - intros p Hin. apply in_app_or in Hin as [Hin|Hin].
    + apply in_app_or in Hin as [Hin|Hin]; [exact Hin|].
      simpl in Hin. unfold skip_log in Hin.
      destruct (is_ImportError e); simpl in Hin; intuition discriminate.
    + apply in_copy_events in Hin as (g & _ & [H|[H|H]]); discriminate.
Qed.

Lemma temp_svg_left_behind_witness :
  let out := save_images (Demo.set_cairosvg_import (Some ModuleNotFoundError) Demo.env)
               (Demo.start (Demo.command_job "ls" ["a.png"])) in
  fst out = inr (PyInt 1)
  /\ files (snd out) !! TmpPath 0 ".svg" = Some "<svg >"
  /\ files (snd out) !! UserPath "a.png" = None.
Proof.
  pose proof (temp_svg_left_behind
                (Demo.set_cairosvg_import (Some ModuleNotFoundError) Demo.env)
                (Demo.start (Demo.command_job "ls" ["a.png"]))
                "a.png" [] ModuleNotFoundError
                eq_refl eq_refl eq_refl eq_refl eq_refl) as (H1 & _ & H3 & _).
  split; [exact H1|]. split; [exact H3|]. reflexivity.
Defined.

(** C9. When cairosvg cannot be imported, only the first PNG or PDF path is
    skipped with an error: every later path, PNG and PDF paths too, is
    written as a copy of the temporary SVG, and no error is logged for it. *)
Theorem later_raster_paths_get_svg
        (env : Env) (s : Sys) (f : string) (rest : list string) (e : exn) :
  aborted (self s) = false ->
  img_paths (self s) = f :: rest ->
  is_png f || is_pdf f = true ->
  cairosvg_import env = Some e ->
  is_ImportError e || is_OSError e = true ->
  let out := save_images env s in
  fst out = inr (PyInt (Z.of_nat (S (length rest))))
  /\ (forall g, In g rest ->
        files (snd out) !! UserPath g = Some (rendered_svg env s))
  /\ List.filter is_error_log (trace (snd out))
     = List.filter is_error_log (trace s) ++ List.filter is_error_log (skip_log e f)
  /\ length (List.filter is_error_log (skip_log e f)) = 1
  /\ attempted (trace (snd out)) = attempted (trace s) ++ f :: rest.
Proof.
  intros Ha Hp Hr Hi He out. subst out.
  rewrite (save_images_without_cairosvg env s f rest e Ha Hp Hr Hi He). simpl.
  split; [reflexivity|]. split; [|split; [|split]].
  - intros g Hg. now apply copy_all_lookup.
  - rewrite !List.filter_app, filter_copy_events by reflexivity. simpl.
    now rewrite app_nil_r.
  - unfold skip_log. now destruct (is_ImportError e).
  - rewrite !attempted_app, attempted_copy_events. simpl.
    assert (Hs : attempted (skip_log e f) = [])
      by (unfold skip_log; now destruct (is_ImportError e)).
    rewrite Hs. simpl. now rewrite <- app_assoc.
Qed.

Lemma later_raster_paths_get_svg_witness :
  let out := save_images (Demo.set_cairosvg_import (Some ModuleNotFoundError) Demo.env)
               (Demo.start (Demo.command_job "ls" ["a.png"; "b.png"])) in
  fst out = inr (PyInt 2)
  /\ files (snd out) !! UserPath "a.png" = None
  /\ files (snd out) !! UserPath "b.png" = Some "<svg >"
  /\ List.filter is_error_log (trace (snd out)) = [Log Error MsgCairoNotInstalled].
Proof.
  pose proof (later_raster_paths_get_svg
                (Demo.set_cairosvg_import (Some ModuleNotFoundError) Demo.env)
                (Demo.start (Demo.command_job "ls" ["a.png"; "b.png"]))
                "a.png" ["b.png"] ModuleNotFoundError
                eq_refl eq_refl eq_refl eq_refl eq_refl) as (H1 & H2 & H3 & _).
  split; [exact H1|]. split; [reflexivity|]. split; [|exact H3].
  apply (H2 "b.png"). simpl. auto.
Defined.

(** C4 (as amended). [save_images] returns [None] when the job is aborted,
    with no effect at all, and [None], not 0, when there is no output path,
    after logging one warning and writing no file.  Otherwise, whenever it
    returns, it returns the number of output paths, and the loop has started
    on each of them in order. *)
Theorem save_images_return (env : Env) (s : Sys) :
  (aborted (self s) = true -> save_images env s = (inr PyNone, s))
  /\ (aborted (self s) = false -> img_paths (self s) = [] ->
      save_images env s
      = (inr PyNone, with_trace (trace s ++ [Log Warning MsgNoPaths]) s))
  /\ (aborted (self s) = false -> img_paths (self s) <> [] ->
      forall (v : pyval) (s' : Sys),
        save_images env s = (inr v, s') ->
        v = PyInt (Z.of_nat (length (img_paths (self s))))
        /\ attempted (trace s') = attempted (trace s) ++ img_paths (self s)).
Proof.
  split; [apply save_images_aborted|].
  split; [apply save_images_no_paths|].
  intros Ha Hp v s' H. rewrite (save_images_loop env s Ha Hp) in H.
  destruct (save_loop env (img_paths (self s)) None None None s)
    as [[e|[]] s1] eqn:E; [discriminate|].
  inversion H; subst. split; [reflexivity|].
  exact (adds_save_loop env _ None None None s tt s' E).
Qed.

Lemma save_images_return_witness :
  save_images Demo.env (Demo.start (Demo.command_job "ls" []))
  = (inr PyNone, with_trace [Log Warning MsgNoPaths]
                   (Demo.start (Demo.command_job "ls" [])))
  /\ (let s := Demo.start (Demo.command_job "ls" ["a.svg"; "b.png"]) in
      fst (save_images Demo.env s) = inr (PyInt 2)
      /\ attempted (trace (snd (save_images Demo.env s))) = ["a.svg"; "b.png"]).
Proof.
  split.
  - exact (proj1 (proj2 (save_images_return Demo.env
                           (Demo.start (Demo.command_job "ls" []))))
                 eq_refl eq_refl).
  - intros s. split; [reflexivity|].
    refine (proj2 (proj2 (proj2 (save_images_return Demo.env s)) eq_refl _
                     (PyInt 2) (snd (save_images Demo.env s)) _)).
    + discriminate.
    + reflexivity.
Defined.

(** C4, the claim as stated fails: with an empty list of output paths
    [save_images] returns [None], which is not the integer 0. *)
Lemma save_images_empty_returns_None :
  let out := save_images Demo.env (Demo.start (Demo.command_job "echo hello" [])) in
  fst out = inr PyNone /\ fst out <> inr (PyInt 0).
Proof. split; [reflexivity|]. vm_compute. discriminate. Qed.

(** ** Facts on [strip], [split] and prefixes *)

Section StringFacts.

Lemma prefix_nil (s : string) : String.prefix EmptyString s = true.
Proof. now destruct s. Qed.

Lemma prefix_empty (p : string) : String.prefix p EmptyString = true -> p = EmptyString.
Proof. destruct p; [reflexivity|discriminate]. Qed.

Lemma prefix_cons_inv (a b : ascii) (p s : string) :
  String.prefix (String a p) (String b s) = true -> a = b /\ String.prefix p s = true.
Proof. simpl. destruct (ascii_dec a b); [auto|discriminate]. Qed.

Lemma prefix_cons (a : ascii) (p s : string) :
  String.prefix p s = true -> String.prefix (String a p) (String a s) = true.
Proof. intros H. simpl. destruct (ascii_dec a a); [exact H|contradiction]. Qed.

(** [rstrip] only removes characters: what starts [rstrip y] starts [y]. *)
Lemma prefix_of_rstrip (y : string) :
  forall p, String.prefix p (PyStr.rstrip y) = true -> String.prefix p y = true.
Proof.
  induction y as [|c y IH]; intros p H; [exact H|].
  destruct p as [|a p]; [apply prefix_nil|].
  cbn [PyStr.rstrip] in H. destruct (PyStr.rstrip y) as [|d r] eqn:E.
  - destruct (PyStr.is_space c); [discriminate|].
    apply prefix_cons_inv in H as [-> H]. apply prefix_empty in H. subst p.
    apply prefix_cons, prefix_nil.
  - apply prefix_cons_inv in H as [-> H]. apply prefix_cons. now apply IH.
Qed.

(** [rstrip] keeps a prefix that holds no blank. *)
Lemma prefix_rstrip (p : string) :
  forall y,
    all_chars (fun c => negb (PyStr.is_space c) && negb (Ascii.eqb c "&")) p = true ->
    String.prefix p y = true -> String.prefix p (PyStr.rstrip y) = true.
Proof.
  induction p as [|a p IH]; intros y Hp H; [apply prefix_nil|].
  destruct y as [|c y]; [discriminate|].
  apply prefix_cons_inv in H as [<- H].
  cbn [all_chars] in Hp. apply andb_true_iff in Hp as [Ha Hp].
  apply andb_true_iff in Ha as [Ha _]. apply negb_true_iff in Ha.
  specialize (IH y Hp H). cbn [PyStr.rstrip].
  destruct (PyStr.rstrip y) as [|d r] eqn:E.
  - apply prefix_empty in IH. subst p. rewrite Ha.
    now apply prefix_cons.
  - now apply prefix_cons.
Qed.

Lemma prefix_first_segment (s : string) :
  forall p, String.prefix p (Spec.first_segment s) = true -> String.prefix p s = true.
Proof.
  induction s as [|c s IH]; intros p H; [exact H|].
  destruct p as [|a p]; [apply prefix_nil|].
  cbn [Spec.first_segment] in H. destruct (Spec.is_separator c); [discriminate|].
  apply prefix_cons_inv in H as [-> H]. apply prefix_cons. now apply IH.
Qed.

Lemma prefix_lstrip_first_segment (s p : string) :
  p <> EmptyString ->
  String.prefix p (PyStr.lstrip (Spec.first_segment s)) = true ->
  String.prefix p (PyStr.lstrip s) = true.
Proof.
  intros Hp. induction s as [|c s IH]; intros H; [exact H|].
  cbn [Spec.first_segment] in H. destruct (Spec.is_separator c) eqn:Hsep.
  - simpl in H. apply prefix_empty in H. contradiction.
  - cbn [PyStr.lstrip] in *. destruct (PyStr.is_space c); [now apply IH|].
    apply (prefix_first_segment (String c s)). cbn [Spec.first_segment].
    now rewrite Hsep.
Qed.

(** Trimming the text before the first separator, or the whole text, gives
    the same start. *)
Lemma startswith_strip_first_segment (s name : string) :
  plain_name name = true ->
  PyStr.startswith (PyStr.strip (Spec.first_segment s)) name = true ->
  PyStr.startswith (PyStr.strip s) name = true.
Proof.
  unfold plain_name, PyStr.startswith, PyStr.strip. intros Hn H.
  apply andb_true_iff in Hn as [Hne Hn]. apply negb_true_iff in Hne.
  apply String.eqb_neq in Hne.
  apply prefix_rstrip; [exact Hn|].
  apply prefix_lstrip_first_segment; [exact Hne|].
  now apply prefix_of_rstrip.
Qed.

(** The first part [split_go] gives starts with what was gathered so far. *)
Lemma split_go_head (sep s : string) :
  forall (skip : nat) (acc : list ascii),
  exists (p : list ascii) (rest : list string),
    PyStr.split_go sep skip acc s = string_of_list_ascii (rev acc ++ p) :: rest.
Proof.
  induction s as [|c s IH]; intros skip acc.
  - exists [], []. simpl. now rewrite app_nil_r.
  - cbn [PyStr.split_go]. destruct skip as [|k]; [|apply IH].
    destruct (String.prefix sep (String c s)).
    + exists [], (PyStr.split_go sep (String.length sep - 1) [] s).
      now rewrite app_nil_r.
    + destruct (IH 0 (c :: acc)) as (p & rest & E).
      exists (c :: p), rest. rewrite E. simpl. now rewrite <- app_assoc.
Qed.

Lemma prefix_string_of_list_app (p : string) (l : list ascii) :
  String.prefix p (string_of_list_ascii (list_ascii_of_string p ++ l)) = true.
Proof.
  induction p as [|a p IH]; [apply prefix_nil|].
  cbn [list_ascii_of_string app string_of_list_ascii]. now apply prefix_cons.
Qed.

(** A text that starts with a name free of [&] gives a first part that
    starts with the name. *)
Lemma split_head_startswith (name : string) :
  forall (s : string) (acc : list ascii),
    all_chars (fun c => negb (PyStr.is_space c) && negb (Ascii.eqb c "&")) name = true ->
    String.prefix name s = true ->
    exists (p : list ascii) (rest : list string),
      PyStr.split_go "&;" 0 acc s
      = string_of_list_ascii (rev acc ++ list_ascii_of_string name ++ p) :: rest.
Proof.
  induction name as [|a name IH]; intros s acc Hn H.
  - apply split_go_head.
  - destruct s as [|c s]; [discriminate|].
    apply prefix_cons_inv in H as [<- H].
    cbn [all_chars] in Hn. apply andb_true_iff in Hn as [Ha Hn].
    apply andb_true_iff in Ha as [_ Ha]. apply negb_true_iff in Ha.
    apply Ascii.eqb_neq in Ha.
    cbn [PyStr.split_go].
    assert (Hpre : String.prefix "&;" (String a s) = false).
    { cbn [String.prefix]. destruct (ascii_dec "&" a) as [E|E]; [|reflexivity].
      now symmetry in E. }
    rewrite Hpre. destruct (IH s (a :: acc) Hn H) as (p & rest & E).
    exists p, rest. rewrite E. simpl. now rewrite <- app_assoc.
Qed.

Lemma lstrip_plain (name : string) (l : list ascii) :
  plain_name name = true ->
  PyStr.lstrip (string_of_list_ascii (list_ascii_of_string name ++ l))
  = string_of_list_ascii (list_ascii_of_string name ++ l).
Proof.
  unfold plain_name. intros Hn. apply andb_true_iff in Hn as [Hne Hn].
  destruct name as [|a name]; [discriminate|].
  cbn [all_chars] in Hn. apply andb_true_iff in Hn as [Ha _].
  apply andb_true_iff in Ha as [Ha _]. apply negb_true_iff in Ha.
  simpl. now rewrite Ha.
Qed.

(** A command that starts with a plain name has a part, the first, that
    starts with the name once trimmed. *)
Lemma contains_ignored_startswith (c name : string) :
  plain_name name = true ->
  PyStr.startswith c name = true ->
  contains_ignored c name = true.
Proof.
  intros Hn H. unfold contains_ignored, PyStr.split.
  assert (Hall := Hn). unfold plain_name in Hall.
  apply andb_true_iff in Hall as [_ Hall].
  destruct (split_head_startswith name c [] Hall H) as (p & rest & E).
  rewrite E. cbn [existsb]. apply orb_true_iff. left.
  unfold PyStr.startswith, PyStr.strip. simpl rev. simpl app.
  rewrite (lstrip_plain name p Hn).
  apply prefix_rstrip; [exact Hall|]. apply prefix_string_of_list_app.
Qed.

Lemma IGNORE_COMMANDS_plain (name : string) :
  In name IGNORE_COMMANDS -> plain_name name = true.
Proof. simpl. intros [<-|[<-|[<-|[<-|[]]]]]; reflexivity. Qed.

End StringFacts.

(** ** What the guard does stop, and what the capture leaves behind *)

(** X1. The guard rejects exactly the commands of which a part between two
    occurrences of the text [&;] starts, once trimmed, with a denylisted
    name; on rejection [aborted] is set, one warning is logged, and no file
    or process is touched. *)
Theorem guard_rejects_iff (env : Env) (s : Sys) (c0 : string) :
  cmd (self s) = Some c0 ->
  (fst (pipe_command env s) = inr (PyBool false) <->
   exists ignore part : string,
     In ignore IGNORE_COMMANDS
     /\ In part (PyStr.split (PyStr.strip c0) "&;")
     /\ PyStr.startswith (PyStr.strip part) ignore = true)
  /\ (fst (pipe_command env s) = inr (PyBool false) ->
      aborted (self (snd (pipe_command env s))) = true
      /\ files (snd (pipe_command env s)) = files s
      /\ tmp_count (snd (pipe_command env s)) = tmp_count s
      /\ exists ignore : string,
           trace (snd (pipe_command env s))
           = trace s ++ [Log Warning (MsgIgnoring ignore (PyStr.strip c0))]).
Proof.
  intros Hc.
  destruct (find (contains_ignored (PyStr.strip c0)) IGNORE_COMMANDS)
    as [ignore|] eqn:Hf.
  - rewrite (pipe_command_rejected env s c0 ignore Hc Hf). simpl. split.
    + split; [intros _|reflexivity].
      apply List.find_some in Hf as [Hin Hhit].
      unfold contains_ignored in Hhit. apply existsb_exists in Hhit as (part & Hp & Hs).
      now exists ignore, part.
    + intros _. repeat split. now exists ignore.
  - assert (Hno : fst (pipe_command env s) <> inr (PyBool false)).
    { rewrite (pipe_command_allowed env s c0 Hc Hf).
      destruct (read_text env (shell_output env (PyStr.strip c0))) as [e|text] eqn:Hr.
      - now rewrite (run_and_capture_decode_error env _ _ e Hr).
      - now rewrite (run_and_capture_decoded env _ _ text Hr). }
    split; [|intros H; contradiction]. split; [intros H; contradiction|].
    intros (ignore & part & Hin & Hp & Hs).
    pose proof (List.find_none _ _ Hf ignore Hin) as Hmiss.
    unfold contains_ignored in Hmiss.
    assert (Hhit : existsb (fun cmd_part =>
                              PyStr.startswith (PyStr.strip cmd_part) ignore)
                           (PyStr.split (PyStr.strip c0) "&;") = true)
      by (apply existsb_exists; now exists part).
    congruence.
Qed.

Lemma guard_rejects_iff_witness :
  fst (pipe_command Demo.env (Demo.start (Demo.command_job "ls &; sudo ls" [])))
  = inr (PyBool false).
Proof.
  apply (proj1 (guard_rejects_iff Demo.env
                  (Demo.start (Demo.command_job "ls &; sudo ls" []))
                  "ls &; sudo ls" eq_refl)).
  exists "sudo", " sudo ls". repeat split; simpl; auto.
Defined.

(** X2. A command whose first segment (the text before the first [;], [&] or
    [|]) starts, once trimmed, with a denylisted name is rejected: [False] is
    returned, [aborted] is set, a warning is logged and no process is
    spawned. *)
Theorem guard_rejects_denylisted_first_segment
        (env : Env) (s : Sys) (c0 name : string) :
  cmd (self s) = Some c0 ->
  In name IGNORE_COMMANDS ->
  PyStr.startswith (PyStr.strip (Spec.first_segment c0)) name = true ->
  exists ignore : string,
    In ignore IGNORE_COMMANDS
    /\ pipe_command env s
       = (inr (PyBool false),
          {| self := set_aborted true (set_cmd (Some (PyStr.strip c0)) (self s));
             files := files s;
             tmp_count := tmp_count s;
             trace := trace s ++ [Log Warning (MsgIgnoring ignore (PyStr.strip c0))] |}).
Proof.
  intros Hc Hin Hseg.
  pose proof (IGNORE_COMMANDS_plain name Hin) as Hplain.
  pose proof (startswith_strip_first_segment c0 name Hplain Hseg) as Hstart.
  pose proof (contains_ignored_startswith (PyStr.strip c0) name Hplain Hstart) as Hhit.
  destruct (find (contains_ignored (PyStr.strip c0)) IGNORE_COMMANDS)
    as [ignore|] eqn:Hf.
  - exists ignore. split; [now apply List.find_some in Hf|].
    now apply pipe_command_rejected.
  - pose proof (List.find_none _ _ Hf name Hin). congruence.
Qed.

Lemma guard_rejects_denylisted_first_segment_witness :
  exists ignore : string,
    In ignore IGNORE_COMMANDS
    /\ pipe_command Demo.env (Demo.start (Demo.command_job "  rm -rf / | cat" ["out.svg"]))
       = (inr (PyBool false),
          {| self := set_aborted true
                       (set_cmd (Some "rm -rf / | cat")
                          (Demo.command_job "  rm -rf / | cat" ["out.svg"]));
             files := ∅;
             tmp_count := 0;
             trace := [Log Warning (MsgIgnoring ignore "rm -rf / | cat")] |}).
Proof.
  apply (guard_rejects_denylisted_first_segment Demo.env
           (Demo.start (Demo.command_job "  rm -rf / | cat" ["out.svg"]))
           "  rm -rf / | cat" "rm" eq_refl).
  - simpl. auto.
  - reflexivity.
Defined.

(** On a decode error the temporary output file of the capture stays on
    disk. *)
Lemma decode_error_leaves_temp_file (env : Env) (s : Sys) (c0 : string) (e : exn) :
  cmd (self s) = Some c0 ->
  find (contains_ignored (PyStr.strip c0)) IGNORE_COMMANDS = None ->
  read_text env (shell_output env (PyStr.strip c0)) = inl e ->
  files (snd (pipe_command env s)) !! TmpPath (tmp_count s) EmptyString
  = Some (shell_output env (PyStr.strip c0)).
Proof.
  intros Hc Hf Hr.
  rewrite (pipe_command_allowed env s c0 Hc Hf).
  rewrite (run_and_capture_decode_error env _ _ e Hr). simpl.
  apply lookup_insert_eq.
Qed.

(** The name the debug log would get from the clock, had the clean-up been
    reached. *)
Example strftime_format :
  "rich_codex_cmdout_" +:+ strftime (clock Demo.env) +:+ ".log"
  = "rich_codex_cmdout_2022.07.04--09.05.03.001234.log".
Proof. reflexivity. Qed.

(** ** How often the exporter renders and rasterizes *)

(** X3. A list of PNG paths, file names of the working directory of which
    the first does not come again, in whatever case, with cairosvg at work:
    every file holds the same bytes, the bytes of the one PNG that was
    rasterized, and the temporary SVG is gone. *)
Theorem png_paths_share_one_rasterization
        (env : Env) (s : Sys) (f : string) (rest : list string) (png : string) :
  aborted (self s) = false ->
  img_paths (self s) = f :: rest ->
  Forall (fun g => file_name g = true) (f :: rest) ->
  Forall (fun g => is_png g = true) (f :: rest) ->
  ~ In (PyStr.lower f) (map PyStr.lower rest) ->
  cairosvg_import env = None ->
  svg2png env (rendered_svg env s) 300 4000 = inr png ->
  let out := save_images env s in
  fst out = inr (PyInt (Z.of_nat (S (length rest))))
  /\ (forall g, In g (f :: rest) -> files (snd out) !! UserPath g = Some png)
  /\ List.filter is_rasterization (trace (snd out))
     = List.filter is_rasterization (trace s)
       ++ [Svg2Png (TmpPath (tmp_count s) ".svg") f]
  /\ files (snd out) !! TmpPath (tmp_count s) ".svg" = None.
Proof.
  intros Ha Hp _ Hall Hnin Hi Hc out. subst out.
  apply not_in_lower in Hnin.
  rewrite (save_images_png_first env s f rest png Ha Hp Hall Hnin Hi Hc). simpl.
  split; [reflexivity|]. split; [|split].
  - intros g [<-|Hg].
    + rewrite copy_all_lookup_other; [apply lookup_insert_eq|].
      intros Hm. apply in_map_iff in Hm as (x & Hx & Hxin).
      inversion Hx; subst. contradiction.
    + now apply copy_all_lookup.
  - rewrite !List.filter_app, filter_copy_events by reflexivity. simpl.
    now rewrite app_nil_r.
  - rewrite copy_all_lookup_other.
    + rewrite lookup_insert_ne by discriminate. apply lookup_delete_eq.
    + intros Hm. apply in_map_iff in Hm as (x & Hx & Hxin). discriminate.
Qed.

Lemma png_paths_share_one_rasterization_witness :
  let out := save_images Demo.env
               (Demo.start (Demo.command_job "ls" ["a.png"; "b.PNG"])) in
  fst out = inr (PyInt 2)
  /\ files (snd out) !! UserPath "a.png" = Some "PNG of <svg >"
  /\ files (snd out) !! UserPath "b.PNG" = Some "PNG of <svg >"
  /\ List.filter is_rasterization (trace (snd out)) = [Svg2Png (TmpPath 0 ".svg") "a.png"]
  /\ files (snd out) !! TmpPath 0 ".svg" = None.
Proof.
  pose proof (png_paths_share_one_rasterization Demo.env
                (Demo.start (Demo.command_job "ls" ["a.png"; "b.PNG"]))
                "a.png" ["b.PNG"] "PNG of <svg >" eq_refl eq_refl) as H.
  destruct H as (H1 & H2 & H3 & H4).
  - repeat constructor.
  - repeat constructor.
  - simpl. intros [H|[]]. discriminate.
  - reflexivity.
  - reflexivity.
  - split; [exact H1|]. split; [|split; [|split]].
    + apply H2. simpl. auto.
    + apply H2. simpl. auto.
    + exact H3.
    + exact H4.
Defined.

Section Bounded.

Variable env : Env.
Variable p : event -> bool.
Variables r z : nat.

Hypothesis p_log : forall lvl msg, p (Log lvl msg) = false.
Hypothesis p_mkdir : forall f, p (Mkdir f) = false.
Hypothesis p_mkstemp : forall f, p (Mkstemp f) = false.
Hypothesis p_copyfile : forall src dst, p (CopyFile src dst) = false.
Hypothesis p_unlink : forall n suffix, p (Unlink (TmpPath n suffix)) = false.
Hypothesis p_save_svg : forall f t, (if p (SaveSvg f t) then 1 else 0) <= r.
Hypothesis p_svg2png : forall src dst, (if p (Svg2Png src dst) then 1 else 0) <= z.
Hypothesis p_svg2pdf : forall src dst, (if p (Svg2Pdf src dst) then 1 else 0) <= z.

Lemma count_events_app (t1 t2 : list event) :
  count_events p (t1 ++ t2) = count_events p t1 + count_events p t2.
Proof. induction t1 as [|e t1 IH]; simpl; [reflexivity|]. rewrite IH. lia. Qed.

Lemma bounded_ret {A : Type} (a : A) : bounded p 0 (mret a).
Proof. intros s. simpl. lia. Qed.

Lemma bounded_raise {A : Type} (e : exn) : bounded p 0 (@raise A e).
Proof. intros s. simpl. lia. Qed.

Lemma bounded_le {A : Type} (n n' : nat) (m : M A) :
  n <= n' -> bounded p n m -> bounded p n' m.
Proof. intros Hle Hm s. specialize (Hm s). lia. Qed.

Lemma bounded_bind {A B : Type} (n1 n2 : nat) (m : M A) (k : A -> M B) :
  bounded p n1 m -> (forall a, bounded p n2 (k a)) -> bounded p (n1 + n2) (mbind k m).
Proof.
  intros Hm Hk s. unfold mbind, M_bind. specialize (Hm s).
  destruct (m s) as [[e|a] s1]; simpl in *; [lia|].
  specialize (Hk a s1). lia.
Qed.

Lemma bounded_bind_0 {A B : Type} (n : nat) (m : M A) (k : A -> M B) :
  bounded p 0 m -> (forall a, bounded p n (k a)) -> bounded p n (mbind k m).
Proof. intros Hm Hk. now apply (bounded_bind 0 n). Qed.

Lemma bounded_bind_r {A B : Type} (n : nat) (m : M A) (k : A -> M B) :
  bounded p n m -> (forall a, bounded p 0 (k a)) -> bounded p n (mbind k m).
Proof.
  intros Hm Hk. apply (bounded_le (n + 0)); [lia|]. now apply bounded_bind.
Qed.

Lemma bounded_emit (e : event) (n : nat) :
  (if p e then 1 else 0) <= n -> bounded p n (emit e).
Proof. intros He s. simpl. rewrite count_events_app. simpl. lia. Qed.

Lemma bounded_same_trace {A : Type} (m : M A) :
  (forall s, trace (snd (m s)) = trace s) -> bounded p 0 m.
Proof. intros Hm s. rewrite Hm. lia. Qed.

Lemma bounded_if {A : Type} (n : nat) (b : bool) (m1 m2 : M A) :
  bounded p n m1 -> bounded p n m2 -> bounded p n (if b then m1 else m2).
Proof. now destruct b. Qed.

Lemma bounded_log (lvl : level) (msg : message) : bounded p 0 (log lvl msg).
Proof. apply bounded_emit. now rewrite p_log. Qed.

Lemma bounded_read_file (f : path) : bounded p 0 (read_file f).
Proof.
  apply bounded_same_trace. intros s. unfold read_file. run.
  now destruct (files s !! f).
Qed.

Lemma bounded_copyfile (src dst : path) : bounded p 0 (copyfile src dst).
Proof.
  unfold copyfile. apply bounded_bind_0; [apply bounded_emit; now rewrite p_copyfile|].
  intros _. apply bounded_same_trace. intros s. run.
  destruct (files s !! src); [|reflexivity]. now destruct (decide (src = dst)).
Qed.

Lemma bounded_unlink (n : nat) (suffix : string) :
  bounded p 0 (unlink (TmpPath n suffix)).
Proof.
  unfold unlink. apply bounded_bind_0; [apply bounded_emit; now rewrite p_unlink|].
  intros _. apply bounded_same_trace. intros s. run.
  now destruct (files s !! TmpPath n suffix).
Qed.

(** What follows [mkstemp] runs on a temporary name. *)
Lemma bounded_bind_mkstemp {B : Type} (n : nat) (suffix : string) (k : path -> M B) :
  (forall c, bounded p n (k (TmpPath c suffix))) ->
  bounded p n (mbind k (mkstemp suffix)).
Proof.
  intros Hk s. unfold mbind, M_bind, mkstemp.
  match goal with
  | |- context [k ?f ?s1] => specialize (Hk (tmp_count s) s1)
  end.
  simpl in Hk. rewrite count_events_app in Hk. simpl in Hk.
  rewrite p_mkstemp in Hk. simpl in *. lia.
Qed.

Lemma bounded_save_svg (f : path) (t : string) : bounded p r (save_svg env f t).
Proof.
  unfold save_svg. apply bounded_bind_r; [apply bounded_emit, p_save_svg|].
  intros _. apply bounded_same_trace. intros ?. reflexivity.
Qed.

Lemma bounded_call_svg2png (src : path) (dst : string) :
  bounded p z (call_svg2png env src dst).
Proof.
  unfold call_svg2png. apply bounded_bind_r; [apply bounded_emit, p_svg2png|].
  intros _. apply bounded_bind_0; [apply bounded_read_file|]. intros bytes.
  destruct (svg2png env bytes 300 4000); [apply bounded_raise|].
  apply bounded_same_trace. intros ?. reflexivity.
Qed.

Lemma bounded_call_svg2pdf (src : path) (dst : string) :
  bounded p z (call_svg2pdf env src dst).
Proof.
  unfold call_svg2pdf. apply bounded_bind_r; [apply bounded_emit, p_svg2pdf|].
  intros _. apply bounded_bind_0; [apply bounded_read_file|]. intros bytes.
  destruct (svg2pdf env bytes); [apply bounded_raise|].
  apply bounded_same_trace. intros ?. reflexivity.
Qed.

Lemma bounded_lazy_load_cairosvg (f : string) :
  bounded p 0 (lazy_load_cairosvg env f).
Proof.
  unfold lazy_load_cairosvg.
  destruct (cairosvg_import env) as [e|]; [|apply bounded_ret].
  destruct (is_ImportError e).
  { repeat (apply bounded_bind_0; [apply bounded_log|intros _]). apply bounded_ret. }
  destruct (is_OSError e); [|apply bounded_raise].
  repeat (apply bounded_bind_0; [apply bounded_log|intros _]). apply bounded_ret.
Qed.

(** Once an SVG exists the loop only copies. *)
Lemma bounded_save_loop_copies (paths : list string) :
  forall (svg : path) (png_img pdf_img : option path),
    bounded p 0 (save_loop env paths (Some svg) png_img pdf_img).
Proof.
  induction paths as [|f rest IH]; intros svg png_img pdf_img; [apply bounded_ret|].
  cbn [save_loop].
  apply bounded_bind_0; [apply bounded_log|intros _].
  apply bounded_bind_0; [apply bounded_emit; now rewrite p_mkdir|intros _].
  destruct (if is_png f then png_img else None) as [png|].
  { apply bounded_bind_0; [apply bounded_copyfile|intros _]. apply IH. }
  destruct (if is_pdf f then pdf_img else None) as [pdf|].
  { apply bounded_bind_0; [apply bounded_copyfile|intros _]. apply IH. }
  apply bounded_bind_0; [apply bounded_copyfile|intros _]. apply IH.
Qed.

(** The round of the loop that renders, once the name of the SVG is known:
    [convert] says whether the path is a PNG or a PDF. *)
Lemma bounded_first_round (f : string) (rest : list string) (svg_filename : path)
      (png_img pdf_img : option path) (convert : bool) :
  (convert = true -> exists c suffix, svg_filename = TmpPath c suffix) ->
  is_png f || is_pdf f = convert ->
  bounded p (r + z)
    (o ← get_self;
     _ ← save_svg env svg_filename (title o);
     loaded ← (if convert then lazy_load_cairosvg env f else mret true);
     if loaded : bool then
       png_img ← (if is_png f
                  then _ ← call_svg2png env svg_filename f;
                       _ ← unlink svg_filename;
                       mret (Some (UserPath f))
                  else mret png_img);
       pdf_img ← (if is_pdf f
                  then _ ← call_svg2pdf env svg_filename f;
                       _ ← unlink svg_filename;
                       mret (Some (UserPath f))
                  else mret pdf_img);
       save_loop env rest (Some svg_filename) png_img pdf_img
     else save_loop env rest (Some svg_filename) png_img pdf_img).
Proof.
  intros Htmp Hconv.
  apply bounded_bind_0; [apply bounded_same_trace; intros ?; reflexivity|intros o].
  apply (bounded_bind r z); [apply bounded_save_svg|intros _].
  apply bounded_bind_0.
  { apply bounded_if; [apply bounded_lazy_load_cairosvg|apply bounded_ret]. }
  intros [|]; [|apply (bounded_le 0); [lia|apply bounded_save_loop_copies]].
  destruct (is_png f) eqn:Hpng.
  - rewrite (is_png_not_pdf f Hpng).
    destruct (Htmp (eq_sym Hconv)) as (c & suffix & ->).
    apply bounded_bind_r.
    { apply bounded_bind_r; [apply bounded_call_svg2png|intros _].
      apply bounded_bind_0; [apply bounded_unlink|intros _]. apply bounded_ret. }
    intros png_img'. apply bounded_bind_0; [apply bounded_ret|intros pdf_img'].
    apply bounded_save_loop_copies.
  - apply bounded_bind_0; [apply bounded_ret|intros png_img'].
    destruct (is_pdf f) eqn:Hpdf.
    + destruct (Htmp (eq_sym Hconv)) as (c & suffix & ->).
      apply bounded_bind_r.
      { apply bounded_bind_r; [apply bounded_call_svg2pdf|intros _].
        apply bounded_bind_0; [apply bounded_unlink|intros _]. apply bounded_ret. }
      intros pdf_img'. apply bounded_save_loop_copies.
    + apply (bounded_le 0); [lia|].
      apply bounded_bind_0; [apply bounded_ret|intros pdf_img'].
      apply bounded_save_loop_copies.
Qed.

(** The loop as a whole: one rendering and one conversion at most. *)
Lemma bounded_save_loop (paths : list string) :
  forall svg_img png_img pdf_img : option path,
    bounded p (r + z) (save_loop env paths svg_img png_img pdf_img).
Proof.
  induction paths as [|f rest IH]; intros svg_img png_img pdf_img.
  { apply (bounded_le 0); [lia|apply bounded_ret]. }
  destruct svg_img as [svg|].
  { apply (bounded_le 0); [lia|apply bounded_save_loop_copies]. }
  cbn [save_loop].
  apply bounded_bind_0; [apply bounded_log|intros _].
  apply bounded_bind_0; [apply bounded_emit; now rewrite p_mkdir|intros _].
  destruct (if is_png f then png_img else None) as [png|].
  { apply bounded_bind_0; [apply bounded_copyfile|intros _]. apply IH. }
  destruct (if is_pdf f then pdf_img else None) as [pdf|].
  { apply bounded_bind_0; [apply bounded_copyfile|intros _]. apply IH. }
  destruct (is_png f || is_pdf f) eqn:Hconv.
  - apply bounded_bind_mkstemp. intros c.
    apply (bounded_first_round f rest (TmpPath c ".svg") png_img pdf_img true);
      [intros _; now exists c, ".svg"|exact Hconv].
  - apply bounded_bind_0; [apply bounded_ret|intros svg_filename].
    apply (bounded_first_round f rest svg_filename png_img pdf_img false);
      [discriminate|exact Hconv].
Qed.

Lemma bounded_save_images : bounded p (r + z) (save_images env).
Proof.
  unfold save_images.
  apply bounded_bind_0; [apply bounded_same_trace; intros ?; reflexivity|intros o].
  apply bounded_if; [apply (bounded_le 0); [lia|apply bounded_ret]|].
  apply bounded_if.
  - apply (bounded_le 0); [lia|].
    apply bounded_bind_0; [apply bounded_log|intros _]. apply bounded_ret.
  - apply bounded_bind_r; [apply bounded_save_loop|intros _]. apply bounded_ret.
Qed.

End Bounded.

(** X5. Whatever the job, the environment and the outcome, [save_images] never
    calls [unlink] on a path of the caller's: only names made by [mkstemp]
    are deleted, a requested [.svg] never. *)
Theorem save_images_unlinks_no_user_path (env : Env) (s : Sys) :
  count_events is_user_unlink (trace (snd (save_images env s)))
  <= count_events is_user_unlink (trace s).
Proof.
  assert (H : bounded is_user_unlink (0 + 0) (save_images env))
    by (apply bounded_save_images; reflexivity || (simpl; lia)).
  specialize (H s). lia.
Qed.

(** X4. Whatever the job, the environment and the outcome, one call of
    [save_images] renders the SVG at most once and calls the rasterizer at
    most once. *)
Theorem save_images_renders_and_rasterizes_once (env : Env) (s : Sys) :
  count_events is_render (trace (snd (save_images env s)))
  <= count_events is_render (trace s) + 1
  /\ count_events is_rasterization (trace (snd (save_images env s)))
     <= count_events is_rasterization (trace s) + 1.
Proof.
  split.
  - apply (bounded_save_images env is_render 1 0); try reflexivity; simpl; lia.
  - apply (bounded_save_images env is_rasterization 0 1); try reflexivity; simpl; lia.
Qed.

(** * Further properties of the class *)

(** ** [format_snippetg] *)

(** X6. [format_snippetg] never raises, whatever the snippet, the tag and
    the JSON parser do: it returns [None], touches no file, and changes
    nothing of the object but the capture console, to which it prints exactly
    one renderable when a snippet is set and nothing otherwise. *)
Theorem format_snippetg_never_raises (env : Env) (s : Sys) :
  fst (format_snippetg env s) = inr PyNone
  /\ files (snd (format_snippetg env s)) = files s
  /\ tmp_count (snd (format_snippetg env s)) = tmp_count s
  /\ exists l : list renderable,
       self (snd (format_snippetg env s))
       = set_capture_console (capture_console (self s) ++ l) (self s)
       /\ length l = match snippet (self s) with Some _ => 1 | None => 0 end.
Proof.
  destruct (snippet (self s)) as [text|] eqn:Hs.
  - destruct (bool_decide (snippet_syntax (self s) = Some "json")
              || bool_decide (snippet_syntax (self s) = None)) eqn:Hb.
    + assert (Hy : snippet_syntax (self s) = None
                   \/ snippet_syntax (self s) = Some "json").
      { apply orb_true_iff in Hb as [H|H]; apply bool_decide_eq_true_1 in H; auto. }
      clear Hb. unfold format_snippetg, print_json, console_print. run.
      rewrite Hs. simpl.
      assert (Hb : bool_decide (snippet_syntax (self s) = Some "json")
                   || bool_decide (snippet_syntax (self s) = None) = true)
        by (destruct Hy as [Hy|Hy]; rewrite Hy; reflexivity).
      rewrite Hb. destruct (json_pretty env text) as [pretty|]; simpl.
      * repeat split. now exists [JsonText pretty].
      * repeat split. now exists [SyntaxBlock text (snippet_syntax (self s))].
    + unfold format_snippetg, print_json, console_print. run.
      rewrite Hs. simpl. rewrite Hb. simpl.
      repeat split. now exists [SyntaxBlock text (snippet_syntax (self s))].
  - rewrite (format_snippetg_no_snippet env s Hs). simpl.
    repeat split. exists []. split; [|reflexivity].
    rewrite app_nil_r. now destruct (self s).
Qed.

(** A snippet tagged [yaml] that happens to be valid JSON goes to the
    highlighter as it is. *)
Lemma format_snippetg_highlight_witness :
  capture_console
    (self (snd (format_snippetg Demo.env
                  (Demo.start (Demo.snippet_job "{}" (Some "yaml") ["out.svg"])))))
  = [SyntaxBlock "{}" (Some "yaml")].
Proof.
  rewrite (format_snippetg_highlight Demo.env
             (Demo.start (Demo.snippet_job "{}" (Some "yaml") ["out.svg"]))
             "{}" "yaml" eq_refl eq_refl); [reflexivity|discriminate].
Defined.

(** ** [confirm_command] *)


(** ** [pipe_command]: what it does to the object and how often it spawns *)

Section PipeCommand.

Variable env : Env.

Lemma rstrip_idempotent (y : string) : PyStr.rstrip (PyStr.rstrip y) = PyStr.rstrip y.
Proof.
  induction y as [|c y IH]; [reflexivity|].
  cbn [PyStr.rstrip]. destruct (PyStr.rstrip y) as [|d r] eqn:E.
  - destruct (PyStr.is_space c) eqn:Hc; [reflexivity|].
    cbn [PyStr.rstrip]. now rewrite Hc.
  - cbn [PyStr.rstrip]. cbn [PyStr.rstrip] in IH.
    destruct (PyStr.rstrip r) as [|d' r'] eqn:E'.
    + destruct (PyStr.is_space d); [discriminate|]. now inversion IH; subst.
    + now inversion IH; subst.
Qed.

Lemma lstrip_rstrip_lstrip (s : string) :
  PyStr.lstrip (PyStr.rstrip (PyStr.lstrip s)) = PyStr.rstrip (PyStr.lstrip s).
Proof.
  induction s as [|c s IH]; [reflexivity|].
  cbn [PyStr.lstrip]. destruct (PyStr.is_space c) eqn:Hc; [exact IH|].
  cbn [PyStr.rstrip]. destruct (PyStr.rstrip s) as [|d r].
  - rewrite Hc. cbn [PyStr.lstrip]. now rewrite Hc.
  - cbn [PyStr.lstrip]. now rewrite Hc.
Qed.

(** [strip] leaves a stripped text as it is. *)
Lemma strip_idempotent (s : string) : PyStr.strip (PyStr.strip s) = PyStr.strip s.
Proof.
  unfold PyStr.strip. rewrite lstrip_rstrip_lstrip. apply rstrip_idempotent.
Qed.

Lemma guard_allows_Some (o : RichImg) (c0 : string) :
  cmd o = Some c0 ->
  guard_allows o
  = match find (contains_ignored (PyStr.strip c0)) IGNORE_COMMANDS with
    | Some _ => false
    | None => true
    end.
Proof. intros H. unfold guard_allows. now rewrite H. Qed.

(** A command whose first segment is denylisted is found by the guard. *)
Lemma denylisted_first_segment_found (c0 name : string) :
  In name IGNORE_COMMANDS ->
  PyStr.startswith (PyStr.strip (Spec.first_segment c0)) name = true ->
  exists ignore : string,
    find (contains_ignored (PyStr.strip c0)) IGNORE_COMMANDS = Some ignore.
Proof.
  intros Hin Hseg.
  pose proof (IGNORE_COMMANDS_plain name Hin) as Hplain.
  pose proof (startswith_strip_first_segment c0 name Hplain Hseg) as Hstart.
  pose proof (contains_ignored_startswith (PyStr.strip c0) name Hplain Hstart) as Hhit.
  destruct (find (contains_ignored (PyStr.strip c0)) IGNORE_COMMANDS)
    as [ignore|] eqn:Hf; [now exists ignore|].
  pose proof (List.find_none _ _ Hf name Hin). congruence.
Qed.

End PipeCommand.

(** X9. [pipe_command] spawns one process when the guard lets the command
    through, whether or not the output then decodes, and none when there is
    no command or the guard stops it. *)
Theorem pipe_command_spawns_once (env : Env) (s : Sys) :
  count_events is_popen (trace (snd (pipe_command env s)))
  = count_events is_popen (trace s) + (if guard_allows (self s) then 1 else 0).
Proof.
  destruct (cmd (self s)) as [c0|] eqn:Hc.
  - rewrite (guard_allows_Some _ c0 Hc).
    destruct (find (contains_ignored (PyStr.strip c0)) IGNORE_COMMANDS)
      as [ignore|] eqn:Hf.
    + rewrite (pipe_command_rejected env s c0 ignore Hc Hf). simpl.
      rewrite count_events_app. simpl. lia.
    + rewrite (pipe_command_allowed env s c0 Hc Hf).
      destruct (read_text env (shell_output env (PyStr.strip c0))) as [e|text] eqn:Hr.
      * rewrite (run_and_capture_decode_error env _ _ e Hr). simpl.
        rewrite count_events_app. simpl. lia.
      * rewrite (run_and_capture_decoded env _ _ text Hr). simpl.
        rewrite count_events_app. simpl. lia.
  - rewrite (pipe_command_no_command env s Hc). simpl.
    unfold guard_allows. rewrite Hc. rewrite count_events_app. simpl. lia.
Qed.

(** X10. Whatever its outcome, [pipe_command] on a job with a command stores
    the command stripped of the blanks around it (and a stripped command
    strips to itself, so the guard decides the same way on a second call),
    sets the title to the command when the guard lets it through and the
    title was empty, sets [aborted] exactly when the guard stops the command,
    and leaves the snippet, the output paths, the terminal settings and
    [no_confirm] alone. *)
Theorem pipe_command_normalises (env : Env) (s : Sys) (c0 : string) :
  cmd (self s) = Some c0 ->
  let o' := self (snd (pipe_command env s)) in
  cmd o' = Some (PyStr.strip c0)
  /\ PyStr.strip (PyStr.strip c0) = PyStr.strip c0
  /\ guard_allows o' = guard_allows (self s)
  /\ title o' = (if guard_allows (self s) && String.eqb (title (self s)) ""
                 then PyStr.strip c0 else title (self s))
  /\ aborted o' = (if guard_allows (self s) then aborted (self s) else true)
  /\ snippet o' = snippet (self s)
  /\ snippet_syntax o' = snippet_syntax (self s)
  /\ img_paths o' = img_paths (self s)
  /\ terminal_width o' = terminal_width (self s)
  /\ terminal_theme o' = terminal_theme (self s)
  /\ no_confirm o' = no_confirm (self s).
Proof.
  intros Hc o'. subst o'.
  assert (Hg : forall o, cmd o = Some (PyStr.strip c0) ->
                         guard_allows o = guard_allows (self s)).
  { intros o Ho. rewrite (guard_allows_Some o _ Ho), (guard_allows_Some _ c0 Hc).
    now rewrite strip_idempotent. }
  rewrite (guard_allows_Some _ c0 Hc) in *.
  destruct (find (contains_ignored (PyStr.strip c0)) IGNORE_COMMANDS)
    as [ignore|] eqn:Hf.
  - rewrite (pipe_command_rejected env s c0 ignore Hc Hf). simpl.
    split; [reflexivity|]. split; [apply strip_idempotent|].
    split; [now apply Hg|]. repeat split.
  - rewrite (pipe_command_allowed env s c0 Hc Hf).
    destruct (read_text env (shell_output env (PyStr.strip c0))) as [e|text] eqn:Hr.
    + rewrite (run_and_capture_decode_error env _ _ e Hr). simpl.
      destruct (String.eqb (title (self s)) ""); simpl;
        (split; [reflexivity|]; split; [apply strip_idempotent|];
         split; [now apply Hg|]; repeat split).
    + rewrite (run_and_capture_decoded env _ _ text Hr). simpl.
      destruct (String.eqb (title (self s)) ""); simpl;
        (split; [reflexivity|]; split; [apply strip_idempotent|];
         split; [now apply Hg|]; repeat split).
Qed.

Lemma pipe_command_normalises_witness :
  let o' := self (snd (pipe_command Demo.env
                         (Demo.start (Demo.command_job "  echo hello " ["out.svg"])))) in
  cmd o' = Some "echo hello" /\ title o' = "echo hello" /\ aborted o' = false.
Proof.
  pose proof (pipe_command_normalises Demo.env
                (Demo.start (Demo.command_job "  echo hello " ["out.svg"]))
                "  echo hello " eq_refl) as (H1 & _ & _ & H4 & H5 & _).
  split; [exact H1|]. split; [exact H4|exact H5].
Defined.

(** X8. A job whose command has a denylisted first segment goes through
    [get_output] and [save_images] without a trace on disk: [get_output]
    returns [None] with the job marked aborted and no process spawned, and
    [save_images] then returns [None] and does nothing at all, whatever the
    output paths. *)
Theorem denylisted_job_exports_nothing (env : Env) (s : Sys) (c0 name : string) :
  cmd (self s) = Some c0 ->
  In name IGNORE_COMMANDS ->
  PyStr.startswith (PyStr.strip (Spec.first_segment c0)) name = true ->
  let s1 := snd (get_output env s) in
  fst (get_output env s) = inr PyNone
  /\ aborted (self s1) = true
  /\ files s1 = files s
  /\ count_events is_popen (trace s1) = count_events is_popen (trace s)
  /\ save_images env s1 = (inr PyNone, s1).
Proof.
  intros Hc Hin Hseg s1. subst s1.
  destruct (denylisted_first_segment_found c0 name Hin Hseg) as (ignore & Hf).
  rewrite (get_output_command_mode env s c0 Hc).
  rewrite (pipe_command_rejected env s c0 ignore Hc Hf). simpl.
  split; [reflexivity|]. split; [reflexivity|]. split; [reflexivity|]. split.
  - rewrite count_events_app. simpl. lia.
  - now apply save_images_aborted.
Qed.

Lemma denylisted_job_exports_nothing_witness :
  let s1 := snd (get_output Demo.env
                   (Demo.start (Demo.command_job "rm -rf /" ["out.svg"; "out.png"]))) in
  aborted (self s1) = true /\ files s1 = ∅
  /\ save_images Demo.env s1 = (inr PyNone, s1).
Proof.
  pose proof (denylisted_job_exports_nothing Demo.env
                (Demo.start (Demo.command_job "rm -rf /" ["out.svg"; "out.png"]))
                "rm -rf /" "rm" eq_refl) as H.
  destruct H as (_ & H2 & H3 & _ & H5).
  - simpl. auto.
  - reflexivity.
  - split; [exact H2|]. split; [exact H3|exact H5].
Defined.

(** ** [__eq__] as a relation *)

(** X17. [__eq__] is reflexive, symmetric and transitive, and it does not
    look at the capture console, at [aborted] or at [no_confirm]: a job
    compares equal to itself after any change of these three. *)
Theorem eq_is_an_equivalence :
  (forall a : RichImg, __eq__ a a = true)
  /\ (forall a b : RichImg, __eq__ a b = __eq__ b a)
  /\ (forall a b c : RichImg, __eq__ a b = true -> __eq__ b c = true -> __eq__ a c = true)
  /\ (forall (a : RichImg) (record : list renderable) (ab nc : bool),
        __eq__ a (set_capture_console record (set_aborted ab (set_no_confirm nc a)))
        = true).
Proof.
  split; [|split; [|split]].
  - intros a. apply eq_true_iff, Forall_forall. reflexivity.
  - intros a b. apply eq_true_iff_eq. rewrite !eq_true_iff. split; intros H.
    + eapply Forall_impl; [exact H|]. simpl. now intros x Hx.
    + eapply Forall_impl; [exact H|]. simpl. now intros x Hx.
  - intros a b c Hab Hbc. apply eq_true_iff in Hab. apply eq_true_iff in Hbc.
    apply eq_true_iff. rewrite Forall_forall in *. intros x Hx.
    now rewrite (Hab x Hx), (Hbc x Hx).
  - intros a record ab nc. apply eq_true_iff. unfold RICH_IMG_ATTRS.
    repeat constructor.
Qed.

(** ** What [save_images] leaves alone *)

Section Frame.

Variable env : Env.
Variable R : Sys -> Sys -> Prop.
Variable ok : path -> Prop.

Hypothesis R_refl : forall s, R s s.
Hypothesis R_trans : forall s1 s2 s3, R s1 s2 -> R s2 s3 -> R s1 s3.
Hypothesis R_trace : forall s t, R s (with_trace t s).
Hypothesis R_write : forall s f bytes, ok f -> R s (with_files (<[f := bytes]> (files s)) s).
Hypothesis R_delete :
  forall s n suffix, R s (with_files (delete (TmpPath n suffix) (files s)) s).
Hypothesis R_mkstemp : forall s suffix, R s (snd (mkstemp suffix s)).
Hypothesis R_clear : forall s, R s (with_self (set_capture_console [] (self s)) s).
Hypothesis ok_tmp : forall n suffix, ok (TmpPath n suffix).

Lemma preserves_ret {A : Type} (a : A) : preserves R (mret a).
Proof. intros s. apply R_refl. Qed.

Lemma preserves_raise {A : Type} (e : exn) : preserves R (@raise A e).
Proof. intros s. apply R_refl. Qed.

Lemma preserves_bind {A B : Type} (m : M A) (k : A -> M B) :
  preserves R m -> (forall a, preserves R (k a)) -> preserves R (mbind k m).
Proof.
  intros Hm Hk s. unfold mbind, M_bind. specialize (Hm s).
  destruct (m s) as [[e|a] s1]; simpl in *; [exact Hm|].
  eapply R_trans; [exact Hm|apply Hk].
Qed.

Lemma preserves_bind_ret {A B : Type} (a : A) (k : A -> M B) :
  preserves R (k a) -> preserves R (mbind k (mret a)).
Proof. intros Hk s. apply Hk. Qed.

Lemma preserves_if {A : Type} (b : bool) (m1 m2 : M A) :
  preserves R m1 -> preserves R m2 -> preserves R (if b then m1 else m2).
Proof. now destruct b. Qed.

Lemma preserves_emit (e : event) : preserves R (emit e).
Proof. intros s. apply R_trace. Qed.

Lemma preserves_get_self : preserves R get_self.
Proof. intros s. apply R_refl. Qed.

Lemma preserves_write_file (f : path) (bytes : string) :
  ok f -> preserves R (write_file f bytes).
Proof. intros Hf s. now apply R_write. Qed.

Lemma preserves_read_file (f : path) : preserves R (read_file f).
Proof.
  intros s. unfold read_file. run. destruct (files s !! f); apply R_refl.
Qed.

Lemma preserves_copyfile (src dst : path) : ok dst -> preserves R (copyfile src dst).
Proof.
  intros Hd. unfold copyfile.
  apply preserves_bind; [apply preserves_emit|intros _].
  intros s. unfold mbind, M_bind, get_files. simpl.
  destruct (files s !! src); [|apply R_refl].
  destruct (decide (src = dst)); [apply R_refl|now apply R_write].
Qed.

Lemma preserves_unlink (n : nat) (suffix : string) :
  preserves R (unlink (TmpPath n suffix)).
Proof.
  unfold unlink. apply preserves_bind; [apply preserves_emit|intros _].
  intros s. unfold mbind, M_bind, get_files. simpl.
  destruct (files s !! TmpPath n suffix); [apply R_delete|apply R_refl].
Qed.

(** What follows [mkstemp] runs on a temporary name. *)
Lemma preserves_bind_mkstemp {B : Type} (suffix : string) (k : path -> M B) :
  (forall c, preserves R (k (TmpPath c suffix))) ->
  preserves R (mbind k (mkstemp suffix)).
Proof.
  intros Hk s. unfold mbind, M_bind.
  pose proof (R_mkstemp s suffix) as Hm. unfold mkstemp in *. simpl in *.
  eapply R_trans; [exact Hm|apply Hk].
Qed.

Lemma preserves_save_svg (f : path) (t : string) : ok f -> preserves R (save_svg env f t).
Proof.
  intros Hf. unfold save_svg.
  apply preserves_bind; [apply preserves_emit|intros _].
  apply preserves_bind; [apply preserves_get_self|intros o].
  apply preserves_bind; [intros s; apply R_clear|intros _].
  now apply preserves_write_file.
Qed.

Lemma preserves_call_svg2png (src : path) (dst : string) :
  ok (UserPath dst) -> preserves R (call_svg2png env src dst).
Proof.
  intros Hd. unfold call_svg2png.
  apply preserves_bind; [apply preserves_emit|intros _].
  apply preserves_bind; [apply preserves_read_file|intros bytes].
  destruct (svg2png env bytes 300 4000); [apply preserves_raise|].
  now apply preserves_write_file.
Qed.

Lemma preserves_call_svg2pdf (src : path) (dst : string) :
  ok (UserPath dst) -> preserves R (call_svg2pdf env src dst).
Proof.
  intros Hd. unfold call_svg2pdf.
  apply preserves_bind; [apply preserves_emit|intros _].
  apply preserves_bind; [apply preserves_read_file|intros bytes].
  destruct (svg2pdf env bytes); [apply preserves_raise|].
  now apply preserves_write_file.
Qed.

Lemma preserves_lazy_load_cairosvg (f : string) :
  preserves R (lazy_load_cairosvg env f).
Proof.
  unfold lazy_load_cairosvg, log.
  destruct (cairosvg_import env) as [e|]; [|apply preserves_ret].
  destruct (is_ImportError e).
  { repeat (apply preserves_bind; [apply preserves_emit|intros _]).
    apply preserves_ret. }
  destruct (is_OSError e); [|apply preserves_raise].
  repeat (apply preserves_bind; [apply preserves_emit|intros _]).
  apply preserves_ret.
Qed.

(** Once an SVG exists the loop only copies onto the paths it is given. *)
Lemma preserves_save_loop_copies (paths : list string) :
  (forall f, In f paths -> ok (UserPath f)) ->
  forall (svg : path) (png_img pdf_img : option path),
    preserves R (save_loop env paths (Some svg) png_img pdf_img).
Proof.
  induction paths as [|f rest IH]; intros Hok svg png_img pdf_img;
    [apply preserves_ret|].
  assert (Hf : ok (UserPath f)) by (apply Hok; now left).
  assert (Hrest : forall g, In g rest -> ok (UserPath g))
    by (intros g Hg; apply Hok; now right).
  cbn [save_loop]. unfold log, mkdir_parent.
  apply preserves_bind; [apply preserves_emit|intros _].
  apply preserves_bind; [apply preserves_emit|intros _].
  destruct (if is_png f then png_img else None) as [png|].
  { apply preserves_bind; [now apply preserves_copyfile|intros _]. now apply IH. }
  destruct (if is_pdf f then pdf_img else None) as [pdf|].
  { apply preserves_bind; [now apply preserves_copyfile|intros _]. now apply IH. }
  apply preserves_bind; [now apply preserves_copyfile|intros _]. now apply IH.
Qed.

(** The round of the loop that renders, once the name of the SVG is known. *)
Lemma preserves_first_round (f : string) (rest : list string) (svg_filename : path)
      (png_img pdf_img : option path) (convert : bool) :
  ok (UserPath f) ->
  (forall g, In g rest -> ok (UserPath g)) ->
  (if convert then exists c suffix, svg_filename = TmpPath c suffix
   else svg_filename = UserPath f) ->
  is_png f || is_pdf f = convert ->
  preserves R
    (o ← get_self;
     _ ← save_svg env svg_filename (title o);
     loaded ← (if convert then lazy_load_cairosvg env f else mret true);
     if loaded : bool then
       png_img ← (if is_png f
                  then _ ← call_svg2png env svg_filename f;
                       _ ← unlink svg_filename;
                       mret (Some (UserPath f))
                  else mret png_img);
       pdf_img ← (if is_pdf f
                  then _ ← call_svg2pdf env svg_filename f;
                       _ ← unlink svg_filename;
                       mret (Some (UserPath f))
                  else mret pdf_img);
       save_loop env rest (Some svg_filename) png_img pdf_img
     else save_loop env rest (Some svg_filename) png_img pdf_img).
Proof.
  intros Hf Hrest Hname Hconv.
  assert (Hsvg : ok svg_filename).
  { destruct convert; [destruct Hname as (c & suffix & ->); apply ok_tmp|].
    now rewrite Hname. }
  apply preserves_bind; [apply preserves_get_self|intros o].
  apply preserves_bind; [now apply preserves_save_svg|intros _].
  apply preserves_bind.
  { apply preserves_if; [apply preserves_lazy_load_cairosvg|apply preserves_ret]. }
  intros [|]; [|now apply preserves_save_loop_copies].
  destruct convert.
  - destruct Hname as (c & suffix & ->).
    apply preserves_bind.
    { apply preserves_if; [|apply preserves_ret].
      apply preserves_bind; [now apply preserves_call_svg2png|intros _].
      apply preserves_bind; [apply preserves_unlink|intros _]. apply preserves_ret. }
    intros png_img'. apply preserves_bind.
    { apply preserves_if; [|apply preserves_ret].
      apply preserves_bind; [now apply preserves_call_svg2pdf|intros _].
      apply preserves_bind; [apply preserves_unlink|intros _]. apply preserves_ret. }
    intros pdf_img'. now apply preserves_save_loop_copies.
  - apply orb_false_iff in Hconv as [Hpng Hpdf]. rewrite Hpng, Hpdf.
    apply preserves_bind; [apply preserves_ret|intros png_img'].
    apply preserves_bind; [apply preserves_ret|intros pdf_img'].
    now apply preserves_save_loop_copies.
Qed.

Lemma preserves_save_loop (paths : list string) :
  (forall f, In f paths -> ok (UserPath f)) ->
  forall svg_img png_img pdf_img : option path,
    preserves R (save_loop env paths svg_img png_img pdf_img).
Proof.
  induction paths as [|f rest IH]; intros Hok svg_img png_img pdf_img;
    [apply preserves_ret|].
  destruct svg_img as [svg|]; [now apply preserves_save_loop_copies|].
  assert (Hf : ok (UserPath f)) by (apply Hok; now left).
  assert (Hrest : forall g, In g rest -> ok (UserPath g))
    by (intros g Hg; apply Hok; now right).
  cbn [save_loop]. unfold log, mkdir_parent.
  apply preserves_bind; [apply preserves_emit|intros _].
  apply preserves_bind; [apply preserves_emit|intros _].
  destruct (if is_png f then png_img else None) as [png|].
  { apply preserves_bind; [now apply preserves_copyfile|intros _]. now apply IH. }
  destruct (if is_pdf f then pdf_img else None) as [pdf|].
  { apply preserves_bind; [now apply preserves_copyfile|intros _]. now apply IH. }
  destruct (is_png f || is_pdf f) eqn:Hconv.
  - apply preserves_bind_mkstemp. intros c.
    apply (preserves_first_round f rest (TmpPath c ".svg") png_img pdf_img true);
      [exact Hf|exact Hrest|now exists c, ".svg"|exact Hconv].
  - apply preserves_bind_ret.
    apply (preserves_first_round f rest (UserPath f) png_img pdf_img false);
      [exact Hf|exact Hrest|reflexivity|exact Hconv].
Qed.

Lemma preserves_save_images (s : Sys) :
  (forall f, In f (img_paths (self s)) -> ok (UserPath f)) ->
  R s (snd (save_images env s)).
Proof.
  intros Hok. unfold save_images.
  change (snd ((o ← get_self;
                if aborted o then mret PyNone
                else if Nat.eqb (length (img_paths o)) 0
                     then _ ← log Warning MsgNoPaths; mret PyNone
                     else _ ← save_loop env (img_paths o) None None None;
                          mret (PyInt (Z.of_nat (length (img_paths o))))) s))
    with (snd ((if aborted (self s) then mret PyNone
                else if Nat.eqb (length (img_paths (self s))) 0
                     then _ ← log Warning MsgNoPaths; mret PyNone
                     else _ ← save_loop env (img_paths (self s)) None None None;
                          mret (PyInt (Z.of_nat (length (img_paths (self s)))))) s)).
  apply preserves_if; [apply preserves_ret|].
  apply preserves_if.
  - apply preserves_bind; [apply preserves_emit|intros _]. apply preserves_ret.
  - apply preserves_bind; [now apply preserves_save_loop|intros _].
    apply preserves_ret.
Qed.

End Frame.

Lemma set_capture_console_twice (c1 c2 : list renderable) (o : RichImg) :
  set_capture_console c1 (set_capture_console c2 o) = set_capture_console c1 o.
Proof. reflexivity. Qed.

Lemma set_capture_console_same (o : RichImg) :
  set_capture_console (capture_console o) o = o.
Proof. now destruct o. Qed.

Lemma same_object_refl (o : RichImg) : same_object o o.
Proof. split; [apply set_capture_console_same|now left]. Qed.

Lemma same_object_trans (o1 o2 o3 : RichImg) :
  same_object o1 o2 -> same_object o2 o3 -> same_object o1 o3.
Proof.
  intros [H12 C12] [H23 C23]. split.
  - rewrite <- H23 in H12. rewrite set_capture_console_twice in H12. exact H12.
  - destruct C23 as [C23|C23]; [rewrite C23; exact C12|now right].
Qed.

(** X12. Whatever the job, the environment and the outcome, [save_images]
    changes nothing of the object but the record of the capture console,
    which it leaves as it is or empties ([save_svg] clears the record it
    has exported).  When the output paths are file names of the working
    directory, it creates, changes or deletes no file of that directory
    other than the output paths, names being told apart without regard to
    case. *)
Theorem save_images_frame (env : Env) (s : Sys) :
  same_object (self s) (self (snd (save_images env s)))
  /\ (Forall (fun g => file_name g = true) (img_paths (self s)) ->
      forall u : string,
        file_name u = true ->
        ~ In (PyStr.lower u) (map PyStr.lower (img_paths (self s))) ->
        files (snd (save_images env s)) !! UserPath u = files s !! UserPath u).
Proof.
  split.
  - apply (preserves_save_images env (fun s1 s2 => same_object (self s1) (self s2))
             (fun _ => True)); auto using same_object_refl.
    + intros s1 s2 s3. apply same_object_trans.
    + intros s1. split; [exact (set_capture_console_same (self s1))|now right].
  - intros _ u _ Hu. apply not_in_lower in Hu. revert u Hu.
    apply (preserves_save_images env (same_outside (img_paths (self s)))
             (fun f => match f with
                       | UserPath u => In u (img_paths (self s))
                       | TmpPath _ _ => True
                       end)); unfold same_outside; auto.
    + intros s1 s2 s3 H12 H23 u Hu. now rewrite (H23 u Hu), (H12 u Hu).
    + intros s1 f bytes Hf u Hu. simpl. apply lookup_insert_ne.
      intros ->. contradiction.
    + intros s1 n suffix u Hu. simpl. now apply lookup_delete_ne.
    + intros s1 suffix u Hu. simpl. now apply lookup_insert_ne.
Qed.

Lemma save_images_frame_witness :
  let s := Demo.start (Demo.command_job "ls" ["a.png"; "b.svg"]) in
  files (snd (save_images Demo.env s)) !! UserPath "notes.txt"
  = files s !! UserPath "notes.txt".
Proof.
  intros s.
  refine (proj2 (save_images_frame Demo.env s) _ "notes.txt" eq_refl _).
  - repeat constructor.
  - simpl. intros [H|[H|[]]]; discriminate.
Defined.

(** ** More runs of the export loop *)

Section ExportRuns.

Variable env : Env.

Lemma is_pdf_not_png (filename : string) :
  is_pdf filename = true -> is_png filename = false.
Proof.
  intros H. destruct (is_png filename) eqn:E; [|reflexivity].
  rewrite (is_png_not_pdf filename E) in H. discriminate.
Qed.

(** Once a PDF exists, every later PDF path gets a copy of it. *)
Lemma save_loop_copies_pdf (rest : list string) :
  forall (s : Sys) (svg_img : option path) (src : path) (bytes : string),
    Forall (fun f => is_pdf f = true) rest ->
    files s !! src = Some bytes ->
    ~ In src (map UserPath rest) ->
    save_loop env rest svg_img None (Some src) s
    = (inr tt,
       {| self := self s;
          files := copy_all bytes rest (files s);
          tmp_count := tmp_count s;
          trace := trace s ++ copy_events src rest |}).
Proof.
  induction rest as [|f rest IH]; intros s svg_img src bytes Hall Hs Hnin.
  - simpl. unfold copy_events, copy_all. simpl. rewrite app_nil_r. now destruct s.
  - simpl in Hnin. apply Decidable.not_or in Hnin as [Hne Hnin].
    inversion Hall as [|? ? Hf Hrest]; subst.
    cbn [save_loop]. unfold mkdir_parent. run. rewrite if_none, Hf.
    rewrite (copyfile_ok _ src (UserPath f) bytes) by (simpl; auto).
    rewrite (IH _ svg_img src bytes); simpl.
    + unfold copy_events. simpl. now rewrite <- !app_assoc.
    + exact Hrest.
    + rewrite lookup_insert_ne by auto. exact Hs.
    + exact Hnin.
Qed.

(** The first round of the loop for a PDF path when cairosvg works. *)
Lemma save_loop_first_pdf (f : string) (rest : list string) (s : Sys) (pdf : string) :
  is_pdf f = true ->
  cairosvg_import env = None ->
  svg2pdf env (rendered_svg env s) = inr pdf ->
  save_loop env (f :: rest) None None None s
  = save_loop env rest (Some (TmpPath (tmp_count s) ".svg")) None (Some (UserPath f))
      {| self := set_capture_console [] (self s);
         files := <[UserPath f := pdf]> (delete (TmpPath (tmp_count s) ".svg") (files s));
         tmp_count := S (tmp_count s);
         trace := trace s ++ [Log Debug (MsgSaving f); Mkdir f;
                              Mkstemp (TmpPath (tmp_count s) ".svg");
                              SaveSvg (TmpPath (tmp_count s) ".svg") (title (self s));
                              Svg2Pdf (TmpPath (tmp_count s) ".svg") f;
                              Unlink (TmpPath (tmp_count s) ".svg")] |}.
Proof.
  intros Hpdf Hi Hc. cbn [save_loop].
  unfold mkdir_parent, save_svg, mkstemp, lazy_load_cairosvg, call_svg2pdf,
    unlink, read_file.
  run. rewrite !if_none, Hpdf, (is_pdf_not_png f Hpdf), Hi. simpl.
  rewrite lookup_insert_eq. unfold rendered_svg in Hc. rewrite Hc. simpl.
  rewrite lookup_insert_ne by discriminate. rewrite lookup_insert_eq. simpl.
  unfold with_files, with_trace. simpl.
  rewrite delete_insert_ne by discriminate.
  now rewrite !delete_insert_eq, <- !app_assoc.
Qed.

(** The first round of the loop for a PNG path when the conversion raises:
    the exception leaves the loop with the temporary SVG on disk. *)
Lemma save_loop_first_png_fails (f : string) (rest : list string) (s : Sys) (e : exn) :
  is_png f = true ->
  cairosvg_import env = None ->
  svg2png env (rendered_svg env s) 300 4000 = inl e ->
  save_loop env (f :: rest) None None None s
  = (inl e,
     {| self := set_capture_console [] (self s);
        files := <[TmpPath (tmp_count s) ".svg" := rendered_svg env s]> (files s);
        tmp_count := S (tmp_count s);
        trace := trace s ++ [Log Debug (MsgSaving f); Mkdir f;
                             Mkstemp (TmpPath (tmp_count s) ".svg");
                             SaveSvg (TmpPath (tmp_count s) ".svg") (title (self s));
                             Svg2Png (TmpPath (tmp_count s) ".svg") f] |}).
Proof.
  intros Hpng Hi Hc. cbn [save_loop].
  unfold mkdir_parent, save_svg, mkstemp, lazy_load_cairosvg, call_svg2png, read_file.
  run. rewrite !if_none, Hpng, Hi. simpl.
  rewrite lookup_insert_eq. unfold rendered_svg in Hc. rewrite Hc. simpl.
  unfold with_files, with_trace, rendered_svg. simpl.
  now rewrite insert_insert_eq, <- !app_assoc.
Qed.

(** Copying the SVG onto a list of paths that holds the SVG's own path stops
    with [SameFileError]. *)
Lemma save_loop_copies_onto_itself (rest : list string) :
  forall (s : Sys) (src : path) (bytes : string),
    files s !! src = Some bytes ->
    In src (map UserPath rest) ->
    fst (save_loop env rest (Some src) None None s) = inl SameFileError
    /\ files (snd (save_loop env rest (Some src) None None s)) !! src = Some bytes.
Proof.
  induction rest as [|f rest IH]; intros s src bytes Hs Hin; [destruct Hin|].
  cbn [save_loop]. unfold mkdir_parent. run. rewrite !if_none.
  destruct (decide (src = UserPath f)) as [->|Hne].
  - rewrite (copyfile_same _ (UserPath f) bytes) by exact Hs. simpl. auto.
  - rewrite (copyfile_ok _ src (UserPath f) bytes) by (simpl; auto).
    destruct Hin as [Hin|Hin]; [now symmetry in Hin|].
    apply IH; [|exact Hin]. simpl. rewrite lookup_insert_ne by auto. exact Hs.
Qed.

End ExportRuns.

(** X13. A list of PDF paths, file names of the working directory of which
    the first does not come again, in whatever case, with cairosvg at work:
    every file holds the bytes of the one PDF that was converted, [svg2pdf]
    is called once, and the temporary SVG is gone. *)
Theorem pdf_paths_share_one_conversion
        (env : Env) (s : Sys) (f : string) (rest : list string) (pdf : string) :
  aborted (self s) = false ->
  img_paths (self s) = f :: rest ->
  Forall (fun g => file_name g = true) (f :: rest) ->
  Forall (fun g => is_pdf g = true) (f :: rest) ->
  ~ In (PyStr.lower f) (map PyStr.lower rest) ->
  cairosvg_import env = None ->
  svg2pdf env (rendered_svg env s) = inr pdf ->
  let out := save_images env s in
  fst out = inr (PyInt (Z.of_nat (S (length rest))))
  /\ (forall g, In g (f :: rest) -> files (snd out) !! UserPath g = Some pdf)
  /\ List.filter is_rasterization (trace (snd out))
     = List.filter is_rasterization (trace s)
       ++ [Svg2Pdf (TmpPath (tmp_count s) ".svg") f]
  /\ files (snd out) !! TmpPath (tmp_count s) ".svg" = None.
Proof.
  intros Ha Hp _ Hall Hnin Hi Hc out. subst out.
  apply not_in_lower in Hnin.
  inversion Hall as [|? ? Hf Hrest]; subst.
  rewrite save_images_loop by (assumption || now rewrite Hp).
  rewrite Hp, (save_loop_first_pdf env f rest s pdf Hf Hi Hc).
  rewrite (save_loop_copies_pdf env rest _ _ (UserPath f) pdf); simpl.
  - split; [reflexivity|]. split; [|split].
    + intros g [<-|Hg].
      * rewrite copy_all_lookup_other; [apply lookup_insert_eq|].
        intros Hm. apply in_map_iff in Hm as (x & Hx & Hxin).
        inversion Hx; subst. contradiction.
      * now apply copy_all_lookup.
    + rewrite !List.filter_app, filter_copy_events by reflexivity. simpl.
      now rewrite app_nil_r.
    + rewrite copy_all_lookup_other.
      * rewrite lookup_insert_ne by discriminate. apply lookup_delete_eq.
      * intros Hm. apply in_map_iff in Hm as (x & Hx & Hxin). discriminate.
  - exact Hrest.
  - apply lookup_insert_eq.
  - intros Hm. apply in_map_iff in Hm as (x & Hx & Hxin).
    inversion Hx; subst. contradiction.
Qed.

Lemma pdf_paths_share_one_conversion_witness :
  let out := save_images Demo.env
               (Demo.start (Demo.command_job "ls" ["a.pdf"; "b.Pdf"])) in
  fst out = inr (PyInt 2)
  /\ files (snd out) !! UserPath "b.Pdf" = Some "PDF of <svg >"
  /\ files (snd out) !! TmpPath 0 ".svg" = None.
Proof.
  pose proof (pdf_paths_share_one_conversion Demo.env
                (Demo.start (Demo.command_job "ls" ["a.pdf"; "b.Pdf"]))
                "a.pdf" ["b.Pdf"] "PDF of <svg >" eq_refl eq_refl) as H.
  destruct H as (H1 & H2 & _ & H4).
  - repeat constructor.
  - repeat constructor.
  - simpl. intros [H|[]]. discriminate.
  - reflexivity.
  - reflexivity.
  - split; [exact H1|]. split; [|exact H4]. apply H2. simpl. auto.
Defined.

(** X14. When the first path is a PNG that is converted and the second path
    is not a PNG, [save_images] raises [FileNotFoundError] at the second
    path: it copies from the temporary SVG, which was deleted after the
    conversion.  The PNG has been written, and the loop does not reach the
    paths after the second. *)
Theorem path_after_png_raises_FileNotFoundError
        (env : Env) (s : Sys) (f g : string) (rest : list string) (png : string) :
  aborted (self s) = false ->
  img_paths (self s) = f :: g :: rest ->
  is_png f = true ->
  is_png g = false ->
  cairosvg_import env = None ->
  svg2png env (rendered_svg env s) 300 4000 = inr png ->
  let out := save_images env s in
  fst out = inl FileNotFoundError
  /\ files (snd out) !! UserPath f = Some png
  /\ files (snd out) !! UserPath g = files s !! UserPath g
  /\ attempted (trace (snd out)) = attempted (trace s) ++ [f; g].
Proof.
  intros Ha Hp Hf Hg Hi Hc out. subst out.
  rewrite save_images_loop by (assumption || now rewrite Hp).
  rewrite Hp, (save_loop_first_png env f (g :: rest) s png Hf Hi Hc).
  cbn [save_loop]. unfold mkdir_parent. run. rewrite Hg, if_none.
  rewrite copyfile_missing.
  - simpl. split; [reflexivity|]. split; [apply lookup_insert_eq|]. split.
    + assert (Hne : f <> g) by (intros ->; congruence).
      rewrite lookup_insert_ne by congruence. now apply lookup_delete_ne.
    + rewrite !attempted_app. simpl. now rewrite ?app_nil_r, <- ?app_assoc.
  - simpl. rewrite lookup_insert_ne by discriminate. apply lookup_delete_eq.
Qed.

Lemma path_after_png_raises_FileNotFoundError_witness :
  let out := save_images Demo.env
               (Demo.start (Demo.command_job "ls" ["a.png"; "b.svg"; "c.png"])) in
  fst out = inl FileNotFoundError
  /\ files (snd out) !! UserPath "a.png" = Some "PNG of <svg >"
  /\ files (snd out) !! UserPath "b.svg" = None
  /\ attempted (trace (snd out)) = ["a.png"; "b.svg"].
Proof.
  exact (path_after_png_raises_FileNotFoundError Demo.env
           (Demo.start (Demo.command_job "ls" ["a.png"; "b.svg"; "c.png"]))
           "a.png" "b.svg" ["c.png"] "PNG of <svg >"
           eq_refl eq_refl eq_refl eq_refl eq_refl eq_refl).
Defined.

(** X15. When the first path is neither a PNG nor a PDF and comes again
    later in the list, [save_images] raises [SameFileError]: the later round
    copies the file onto itself.  The file still holds the SVG. *)
Theorem repeated_svg_path_raises_SameFileError
        (env : Env) (s : Sys) (f : string) (rest : list string) :
  aborted (self s) = false ->
  img_paths (self s) = f :: rest ->
  is_png f = false ->
  is_pdf f = false ->
  In f rest ->
  let out := save_images env s in
  fst out = inl SameFileError
  /\ files (snd out) !! UserPath f = Some (rendered_svg env s).
Proof.
  intros Ha Hp Hpng Hpdf Hin out. subst out.
  rewrite save_images_loop by (assumption || now rewrite Hp).
  rewrite Hp, (save_loop_first_svg env f rest s Hpng Hpdf).
  match goal with
  | |- context [save_loop env rest (Some (UserPath f)) None None ?s1] =>
      destruct (save_loop_copies_onto_itself env rest s1 (UserPath f)
                  (rendered_svg env s)) as [H1 H2];
      [apply lookup_insert_eq|now apply in_map|];
      destruct (save_loop env rest (Some (UserPath f)) None None s1)
        as [[e|v] s2]; simpl in *; [|discriminate]
  end.
  inversion H1; subst. split; [reflexivity|exact H2].
Qed.

Lemma repeated_svg_path_raises_SameFileError_witness :
  fst (save_images Demo.env
         (Demo.start (Demo.command_job "ls" ["a.svg"; "b.svg"; "a.svg"])))
  = inl SameFileError.
Proof.
  refine (proj1 (repeated_svg_path_raises_SameFileError Demo.env
                   (Demo.start (Demo.command_job "ls" ["a.svg"; "b.svg"; "a.svg"]))
                   "a.svg" ["b.svg"; "a.svg"] eq_refl eq_refl eq_refl eq_refl _)).
  simpl. auto.
Defined.

(** X16. When the conversion of the first path to PNG raises, [save_images]
    raises the same exception: the path is not written, the temporary SVG
    stays on disk, and no later path is attempted. *)
Theorem failed_conversion_reaches_caller
        (env : Env) (s : Sys) (f : string) (rest : list string) (e : exn) :
  aborted (self s) = false ->
  img_paths (self s) = f :: rest ->
  is_png f = true ->
  cairosvg_import env = None ->
  svg2png env (rendered_svg env s) 300 4000 = inl e ->
  let out := save_images env s in
  fst out = inl e
  /\ files (snd out) !! UserPath f = files s !! UserPath f
  /\ files (snd out) !! TmpPath (tmp_count s) ".svg" = Some (rendered_svg env s)
  /\ attempted (trace (snd out)) = attempted (trace s) ++ [f].
Proof.
  intros Ha Hp Hf Hi Hc out. subst out.
  rewrite save_images_loop by (assumption || now rewrite Hp).
  rewrite Hp, (save_loop_first_png_fails env f rest s e Hf Hi Hc). simpl.
  split; [reflexivity|]. split; [now apply lookup_insert_ne|].
  split; [apply lookup_insert_eq|]. now rewrite attempted_app.
Qed.

Lemma failed_conversion_reaches_caller_witness :
  let out := save_images (with_failing_conversion ParseError Demo.env)
               (Demo.start (Demo.command_job "ls" ["a.png"; "b.png"])) in
  fst out = inl ParseError
  /\ files (snd out) !! UserPath "a.png" = None
  /\ files (snd out) !! TmpPath 0 ".svg" = Some "<svg >"
  /\ attempted (trace (snd out)) = ["a.png"].
Proof.
  exact (failed_conversion_reaches_caller (with_failing_conversion ParseError Demo.env)
           (Demo.start (Demo.command_job "ls" ["a.png"; "b.png"]))
           "a.png" ["b.png"] ParseError eq_refl eq_refl eq_refl eq_refl eq_refl).
Defined.

(** ** From the formatter to the files *)

Lemma format_snippetg_pretty (env : Env) (s : Sys) (text pretty : string) :
  snippet (self s) = Some text ->
  snippet_syntax (self s) = None \/ snippet_syntax (self s) = Some "json" ->
  json_pretty env text = Some pretty ->
  format_snippetg env s
  = (inr PyNone,
     with_trace (trace s ++ [Log Info MsgFormattingSnippet; Log Debug MsgFormattingJSON])
       (printed [JsonText pretty] s)).
Proof.
  intros Hs Hy Hj.
  assert (Hb : bool_decide (snippet_syntax (self s) = Some "json")
               || bool_decide (snippet_syntax (self s) = None) = true)
    by (destruct Hy as [Hy|Hy]; rewrite Hy; reflexivity).
  unfold format_snippetg, print_json, console_print. run.
  rewrite Hs. simpl. rewrite Hb, Hj.
  unfold printed, with_trace, with_self; simpl. rewrite <- app_assoc. reflexivity.
Qed.

(** X18. Formatting a JSON snippet and then saving to a list of paths, file
    names of the working directory, that starts with an SVG (which does not
    come again, in whatever case) writes, to every path, the SVG of the job's
    title and of everything the capture console held before followed by the
    pretty-printed snippet; [save_images] returns the number of paths. *)
Theorem formatted_snippet_is_exported
        (env : Env) (s : Sys) (text pretty f : string) (rest : list string) :
  snippet (self s) = Some text ->
  snippet_syntax (self s) = None \/ snippet_syntax (self s) = Some "json" ->
  json_pretty env text = Some pretty ->
  aborted (self s) = false ->
  img_paths (self s) = f :: rest ->
  Forall (fun g => file_name g = true) (f :: rest) ->
  is_png f = false ->
  is_pdf f = false ->
  ~ In (PyStr.lower f) (map PyStr.lower rest) ->
  let out := save_images env (snd (format_snippetg env s)) in
  fst out = inr (PyInt (Z.of_nat (S (length rest))))
  /\ (forall g, In g (f :: rest) ->
        files (snd out) !! UserPath g
        = Some (svg_export env (title (self s))
                  (capture_console (self s) ++ [JsonText pretty]))).
Proof.
  intros Hs Hy Hj Ha Hp _ Hpng Hpdf Hnin out. subst out.
  apply not_in_lower in Hnin.
  rewrite (format_snippetg_pretty env s text pretty Hs Hy Hj). simpl.
  rewrite (save_images_svg_first env _ f rest); try assumption. simpl.
  split; [reflexivity|]. intros g [<-|Hg].
  - rewrite copy_all_lookup_other; [apply lookup_insert_eq|].
    intros Hm. apply in_map_iff in Hm as (x & Hx & Hxin).
    inversion Hx; subst. contradiction.
  - now apply copy_all_lookup.
Qed.

Lemma formatted_snippet_is_exported_witness :
  let out := save_images Demo.env
               (snd (format_snippetg Demo.env
                       (Demo.start (Demo.snippet_job "{}" None ["a.svg"; "b.svg"])))) in
  fst out = inr (PyInt 2)
  /\ files (snd out) !! UserPath "b.svg" = Some "<svg >{};".
Proof.
  pose proof (formatted_snippet_is_exported Demo.env
                (Demo.start (Demo.snippet_job "{}" None ["a.svg"; "b.svg"]))
                "{}" "{}" "a.svg" ["b.svg"] eq_refl (or_introl eq_refl) eq_refl
                eq_refl eq_refl) as H.
  destruct H as (H1 & H2).
  - repeat constructor.
  - reflexivity.
  - reflexivity.
  - simpl. intros [H|[]]. discriminate.
  - split; [exact H1|]. apply (H2 "b.svg"). simpl. auto.
Defined.

(** ** The text that [__hash__] hashes tells jobs apart *)

Section HashKey.

Lemma sapp_nil (s : string) : EmptyString +:+ s = s.
Proof. reflexivity. Qed.

Lemma sapp_cons (x : ascii) (a b : string) : String x a +:+ b = String x (a +:+ b).
Proof. reflexivity. Qed.

Lemma string_tail_inj (c c' : ascii) (x y : string) :
  String c x = String c' y -> x = y.
Proof. intros H. now injection H. Qed.

Lemma sapp_assoc (a b c : string) : (a +:+ b) +:+ c = a +:+ (b +:+ c).
Proof.
  induction a as [|x a IH]; [reflexivity|]. rewrite !sapp_cons. now f_equal.
Qed.

Lemma sapp_inv_head (a b c : string) : a +:+ b = a +:+ c -> b = c.
Proof.
  induction a as [|x a IH]; intros H; [exact H|].
  rewrite !sapp_cons in H. inversion H. now apply IH.
Qed.

(** Two texts that agree once continued start one with the other. *)
Lemma sapp_eq_prefix (a : string) :
  forall b r r' : string,
    a +:+ r = b +:+ r' -> String.prefix a b = true \/ String.prefix b a = true.
Proof.
  induction a as [|x a IH]; intros b r r' H; [left; apply prefix_nil|].
  destruct b as [|y b]; [right; apply prefix_nil|].
  rewrite !sapp_cons in H. inversion H; subst.
  destruct (IH b r r' ltac:(assumption)) as [P|P]; [left|right]; now apply prefix_cons.
Qed.

Lemma in_all_ascii (c : ascii) : In c all_ascii.
Proof.
  unfold all_ascii. rewrite <- (ascii_nat_embedding c). apply in_map.
  apply in_seq. pose proof (nat_ascii_bounded c). lia.
Qed.

Lemma repr_char_code_ok_quotes (q : ascii) :
  q = "'"%char \/ q = ascii_of_nat 34 -> repr_char_code_ok q = true.
Proof. intros [->| ->]; vm_compute; reflexivity. Qed.

Lemma repr_char_code (q c c' : ascii) :
  repr_char_code_ok q = true ->
  (exists a u, PyStr.repr_char q c = String a u /\ a <> q)
  /\ (String.prefix (PyStr.repr_char q c) (PyStr.repr_char q c') = true -> c = c').
Proof.
  intros Hok. unfold repr_char_code_ok in Hok.
  rewrite List.forallb_forall in Hok. specialize (Hok c (in_all_ascii c)).
  apply andb_true_iff in Hok as [Hhead Hpre]. split.
  - destruct (PyStr.repr_char q c) as [|a u]; [discriminate|].
    exists a, u. split; [reflexivity|].
    apply negb_true_iff in Hhead. now apply Ascii.eqb_neq.
  - rewrite List.forallb_forall in Hpre. specialize (Hpre c' (in_all_ascii c')).
    intros P. rewrite P in Hpre. simpl in Hpre. rewrite orb_false_r in Hpre.
    now apply Ascii.eqb_eq.
Qed.

(** The text of a character, continued, gives the character and the
    continuation back. *)
Lemma repr_char_delimited (q c c' : ascii) (r r' : string) :
  repr_char_code_ok q = true ->
  PyStr.repr_char q c +:+ r = PyStr.repr_char q c' +:+ r' -> c = c' /\ r = r'.
Proof.
  intros Hok H.
  assert (E : c = c').
  { destruct (sapp_eq_prefix _ _ _ _ H) as [P|P].
    - now apply (proj2 (repr_char_code q c c' Hok)).
    - symmetry. now apply (proj2 (repr_char_code q c' c Hok)). }
  subst c'. split; [reflexivity|]. now apply sapp_inv_head in H.
Qed.

(** The escaped text of a string, up to the closing quote. *)
Lemma repr_chars_delimited (q : ascii) :
  repr_char_code_ok q = true ->
  forall s s' r r' : string,
    PyStr.repr_chars q s +:+ String q r = PyStr.repr_chars q s' +:+ String q r' ->
    s = s' /\ r = r'.
Proof.
  intros Hok.
  assert (Hhead : forall c X r, PyStr.repr_char q c +:+ X <> String q r).
  { intros c X r H.
    destruct (proj1 (repr_char_code q c c Hok)) as (a & u & E & Ha).
    rewrite E, sapp_cons in H. inversion H. contradiction. }
  induction s as [|c s IH]; intros [|c' s'] r r' H.
  - cbn [PyStr.repr_chars] in H. rewrite !sapp_nil in H. inversion H. auto.
  - cbn [PyStr.repr_chars] in H. rewrite sapp_assoc, sapp_nil in H.
    symmetry in H. now apply Hhead in H.
  - cbn [PyStr.repr_chars] in H. rewrite sapp_assoc, sapp_nil in H.
    now apply Hhead in H.
  - cbn [PyStr.repr_chars] in H. rewrite !sapp_assoc in H.
    apply (repr_char_delimited q c c' _ _ Hok) in H as [-> H].
    apply IH in H as [-> ->]. auto.
Qed.

Lemma repr_str_shape (s : string) :
  exists q : ascii,
    (q = "'"%char \/ q = ascii_of_nat 34)
    /\ forall r, PyStr.repr_str s +:+ r
                 = String q (PyStr.repr_chars q s +:+ String q r).
Proof.
  unfold PyStr.repr_str.
  destruct (PyStr.contains_char "'" s && negb (PyStr.contains_char (ascii_of_nat 34) s)).
  - exists (ascii_of_nat 34). split; [now right|]. intros r.
    cbv beta iota zeta. now rewrite sapp_assoc, !sapp_cons, sapp_nil.
  - exists "'"%char. split; [now left|]. intros r.
    cbv beta iota zeta. now rewrite sapp_assoc, !sapp_cons, sapp_nil.
Qed.

(** [repr] of a string, continued, gives the string and the continuation
    back. *)
Lemma repr_str_delimited (s s' r r' : string) :
  PyStr.repr_str s +:+ r = PyStr.repr_str s' +:+ r' -> s = s' /\ r = r'.
Proof.
  destruct (repr_str_shape s) as (q & Hq & E).
  destruct (repr_str_shape s') as (q' & Hq' & E').
  rewrite E, E'. intros H. inversion H; subst.
  apply (repr_chars_delimited q' (repr_char_code_ok_quotes q' Hq')).
  assumption.
Qed.

Lemma repr_str_head (s r : string) (a : ascii) (t : string) :
  PyStr.repr_str s +:+ r = String a t -> a = "'"%char \/ a = ascii_of_nat 34.
Proof.
  destruct (repr_str_shape s) as (q & Hq & E). rewrite E. intros H.
  inversion H; subst. exact Hq.
Qed.

(** [repr] of an optional string. *)
Lemma repr_option_str_delimited (x y : option string) (r r' : string) :
  repr (of_option OStr x) +:+ r = repr (of_option OStr y) +:+ r' -> x = y /\ r = r'.
Proof.
  destruct x as [s|], y as [s'|]; cbn [of_option repr]; intros H.
  - apply repr_str_delimited in H as [-> ->]. auto.
  - rewrite !sapp_cons in H. apply repr_str_head in H as [H|H]; discriminate.
  - rewrite !sapp_cons in H. symmetry in H.
    apply repr_str_head in H as [H|H]; discriminate.
  - now apply sapp_inv_head in H.
Qed.

Lemma string_of_uint_digits (d : Decimal.uint) :
  all_chars is_digit_or_minus (NilEmpty.string_of_uint d) = true.
Proof. induction d; simpl; auto. Qed.

Lemma repr_int_digits (z : Z) : all_chars is_digit_or_minus (PyStr.repr_int z) = true.
Proof.
  unfold PyStr.repr_int, NilZero.string_of_int, NilZero.string_of_uint.
  destruct (Z.to_int z) as [d|d]; destruct d;
    try reflexivity; apply (string_of_uint_digits (_ _)) || simpl;
    try apply (string_of_uint_digits _).
Qed.

Lemma repr_int_inj (z z' : Z) : PyStr.repr_int z = PyStr.repr_int z' -> z = z'.
Proof.
  unfold PyStr.repr_int. intros H.
  assert (Hn : forall n, Z.to_int n <> Decimal.Pos Decimal.Nil
                         /\ Z.to_int n <> Decimal.Neg Decimal.Nil).
  { intros [|p|p]; simpl; split; try discriminate;
      intros E; inversion E as [E']; now apply Unsigned.to_uint_nonnil in E'. }
  apply (f_equal NilZero.int_of_string) in H.
  rewrite !NilZero.isi in H by apply Hn.
  inversion H as [E]. apply (f_equal Z.of_int) in E.
  now rewrite !DecimalZ.of_to in E.
Qed.

(** Two texts without a comma that agree once continued by a comma are
    equal. *)
Lemma until_comma (u : string) :
  forall u' r r' : string,
    all_chars (fun c => negb (Ascii.eqb c ",")) u = true ->
    all_chars (fun c => negb (Ascii.eqb c ",")) u' = true ->
    u +:+ String "," r = u' +:+ String "," r' -> u = u' /\ r = r'.
Proof.
  induction u as [|x u IH]; intros [|y u'] r r' Hu Hu' H;
    rewrite ?sapp_cons, ?sapp_nil in H; cbn [all_chars] in *.
  - inversion H. auto.
  - inversion H; subst. apply andb_true_iff in Hu' as [Hy _]. discriminate.
  - inversion H; subst. apply andb_true_iff in Hu as [Hx _]. discriminate.
  - inversion H; subst.
    apply andb_true_iff in Hu as [_ Hu]. apply andb_true_iff in Hu' as [_ Hu'].
    destruct (IH u' r r' Hu Hu') as [-> ->]; auto.
Qed.

Lemma all_chars_impl (f g : ascii -> bool) (s : string) :
  (forall c, f c = true -> g c = true) -> all_chars f s = true -> all_chars g s = true.
Proof.
  intros Hfg. induction s as [|c s IH]; simpl; [auto|].
  intros H. apply andb_true_iff in H as [Hc Hs].
  rewrite (Hfg c Hc). now apply IH.
Qed.

Lemma digit_is_no_comma (c : ascii) :
  is_digit_or_minus c = true -> negb (Ascii.eqb c ",") = true.
Proof.
  intros H. apply negb_true_iff, Ascii.eqb_neq. intros ->. discriminate.
Qed.

(** [repr] of an optional integer, followed by a comma. *)
Lemma repr_option_int_delimited (x y : option Z) (r r' : string) :
  repr (of_option OInt x) +:+ String "," r = repr (of_option OInt y) +:+ String "," r' ->
  x = y /\ r = r'.
Proof.
  assert (Hc : forall o : option Z,
             all_chars (fun c => negb (Ascii.eqb c ",")) (repr (of_option OInt o)) = true).
  { intros [z|]; simpl; [|reflexivity].
    apply (all_chars_impl is_digit_or_minus); [apply digit_is_no_comma|].
    apply repr_int_digits. }
  intros H. apply until_comma in H as [E ->]; [|apply Hc|apply Hc].
  split; [|reflexivity].
  destruct x as [z|], y as [z'|]; simpl in E.
  - f_equal. now apply repr_int_inj.
  - pose proof (repr_int_digits z) as Hd. rewrite E in Hd. discriminate.
  - pose proof (repr_int_digits z') as Hd. rewrite <- E in Hd. discriminate.
  - reflexivity.
Qed.

Lemma join_comma_cons (a : string) (m : list string) (r : string) :
  PyStr.join_comma (a :: m) +:+ r
  = a +:+ match m with
          | [] => r
          | _ :: _ => String "," (String " " (PyStr.join_comma m +:+ r))
          end.
Proof.
  destruct m as [|b m]; [reflexivity|].
  cbn [PyStr.join_comma]. now rewrite !sapp_assoc.
Qed.

(** The elements of [repr] of a list of strings, up to the closing
    bracket. *)
Lemma join_comma_delimited (l : list string) :
  forall (l' : list string) (r r' : string),
    PyStr.join_comma (map PyStr.repr_str l) +:+ String "]" r
    = PyStr.join_comma (map PyStr.repr_str l') +:+ String "]" r' ->
    l = l' /\ r = r'.
Proof.
  induction l as [|x xs IH]; intros [|y ys] r r' H.
  - cbn [map PyStr.join_comma] in H. rewrite !sapp_nil in H. inversion H. auto.
  - cbn [map] in H. rewrite join_comma_cons in H.
    cbn [PyStr.join_comma] in H. rewrite sapp_nil in H.
    symmetry in H. apply repr_str_head in H as [H|H]; discriminate.
  - cbn [map] in H. rewrite join_comma_cons in H.
    cbn [PyStr.join_comma] in H. rewrite sapp_nil in H.
    apply repr_str_head in H as [H|H]; discriminate.
  - cbn [map] in H. rewrite !join_comma_cons in H.
    apply repr_str_delimited in H as [-> H].
    destruct xs as [|x2 xs], ys as [|y2 ys]; cbn [map] in H.
    + inversion H. auto.
    + discriminate.
    + discriminate.
    + inversion H as [H']. apply (IH (y2 :: ys)) in H' as [E ->].
      rewrite E. auto.
Qed.

Lemma hash_key_shape (o : RichImg) :
  hash_key o
  = String "["
      (repr (of_option OInt (terminal_width o)) +:+ String "," (String " "
      (repr (of_option OStr (terminal_theme o)) +:+ String "," (String " "
      (PyStr.repr_str (title o) +:+ String "," (String " "
      (repr (of_option OStr (cmd o)) +:+ String "," (String " "
      (repr (of_option OStr (snippet o)) +:+ String "," (String " "
      (repr (of_option OStr (snippet_syntax o)) +:+ String "," (String " "
      (String "[" (PyStr.join_comma (map PyStr.repr_str (img_paths o))
                   +:+ String "]" "]")))))))))))))).
Proof.
  unfold hash_key, str_of_list, RICH_IMG_ATTRS, PyStr.repr_list.
  cbn [map getattr PyStr.join_comma repr]. unfold PyStr.repr_list.
  repeat rewrite sapp_assoc. reflexivity.
Qed.

Lemma hash_key_no_fn_shape (o : RichImg) :
  hash_key_no_fn o
  = String "["
      (repr (of_option OInt (terminal_width o)) +:+ String "," (String " "
      (repr (of_option OStr (terminal_theme o)) +:+ String "," (String " "
      (PyStr.repr_str (title o) +:+ String "," (String " "
      (repr (of_option OStr (cmd o)) +:+ String "," (String " "
      (repr (of_option OStr (snippet o)) +:+ String "," (String " "
      (repr (of_option OStr (snippet_syntax o)) +:+ "]"))))))))))).
Proof.
  unfold hash_key_no_fn, str_of_list, PyStr.repr_list.
  change (filter (fun attr => attr <> Attr.img_paths) RICH_IMG_ATTRS)
    with [Attr.terminal_width; Attr.terminal_theme; Attr.title; Attr.cmd;
          Attr.snippet; Attr.snippet_syntax].
  cbn [map getattr PyStr.join_comma repr]. unfold PyStr.repr_list.
  repeat rewrite sapp_assoc. reflexivity.
Qed.

End HashKey.

(** X19. [__hash__] hashes a text that tells jobs apart: two jobs have the
    same text exactly when they compare equal, so two jobs that differ in a
    compared attribute can only share a hash by a collision of [hash]
    itself.  Likewise the text [_hash_no_fn] hashes is the same for two jobs
    exactly when they agree on the six attributes other than [img_paths]. *)
Theorem hash_key_tells_jobs_apart (env : Env) (a b : RichImg) :
  __hash__ env a = py_hash env (hash_key a)
  /\ _hash_no_fn env a = py_hash env (hash_key_no_fn a)
  /\ (hash_key a = hash_key b <-> __eq__ a b = true)
  /\ (hash_key_no_fn a = hash_key_no_fn b <->
      terminal_width a = terminal_width b /\
      terminal_theme a = terminal_theme b /\
      title a = title b /\
      cmd a = cmd b /\ snippet a = snippet b /\ snippet_syntax a = snippet_syntax b).
Proof.
  split; [reflexivity|]. split; [reflexivity|]. split; split.
  - rewrite !hash_key_shape. intros H. apply string_tail_inj in H.
    apply repr_option_int_delimited in H as [Ew H]. apply string_tail_inj in H.
    apply repr_option_str_delimited in H as [Et H]. do 2 apply string_tail_inj in H.
    apply repr_str_delimited in H as [Eti H]. do 2 apply string_tail_inj in H.
    apply repr_option_str_delimited in H as [Ec H]. do 2 apply string_tail_inj in H.
    apply repr_option_str_delimited in H as [Es H]. do 2 apply string_tail_inj in H.
    apply repr_option_str_delimited in H as [Ey H]. do 3 apply string_tail_inj in H.
    apply join_comma_delimited in H as [Ep _].
    apply eq_true_iff. unfold RICH_IMG_ATTRS.
    repeat constructor; simpl; congruence.
  - intros H. apply eq_true_iff, map_getattr_ext in H.
    unfold hash_key. now rewrite H.
  - rewrite !hash_key_no_fn_shape. intros H. apply string_tail_inj in H.
    apply repr_option_int_delimited in H as [Ew H]. apply string_tail_inj in H.
    apply repr_option_str_delimited in H as [Et H]. do 2 apply string_tail_inj in H.
    apply repr_str_delimited in H as [Eti H]. do 2 apply string_tail_inj in H.
    apply repr_option_str_delimited in H as [Ec H]. do 2 apply string_tail_inj in H.
    apply repr_option_str_delimited in H as [Es H]. do 2 apply string_tail_inj in H.
    apply repr_option_str_delimited in H as [Ey _].
    repeat split; assumption.
  - intros (Ew & Et & Eti & Ec & Es & Ey). rewrite !hash_key_no_fn_shape.
    now rewrite Ew, Et, Eti, Ec, Es, Ey.
Qed.

(** A title that holds a quote, a comma and a bracket does not run into the
    next attribute. *)
Lemma hash_key_tells_jobs_apart_witness :
  hash_key (set_title "a', 'b" (Demo.command_job "ls" ["x.svg"]))
  <> hash_key (set_title "a" (Demo.command_job "b" ["x.svg"]))
  /\ hash_key_no_fn (Demo.command_job "ls" ["x.svg"])
     = hash_key_no_fn (Demo.command_job "ls" ["y.png"]).
Proof.
  pose proof (hash_key_tells_jobs_apart Demo.env
                (set_title "a', 'b" (Demo.command_job "ls" ["x.svg"]))
                (set_title "a" (Demo.command_job "b" ["x.svg"]))) as (_ & _ & Hk & _).
  pose proof (hash_key_tells_jobs_apart Demo.env
                (Demo.command_job "ls" ["x.svg"])
                (Demo.command_job "ls" ["y.png"])) as (_ & _ & _ & Hn).
  split.
  - intros E. apply Hk in E. discriminate.
  - apply Hn. repeat split.
Defined.
